(** * Password strength checker: a shallow embedding of [passwordstrength.py]

    The scorer is a pure function of one Python [str].  A Python string is a
    sequence of Unicode code points, so a password is a [list N] here.  The
    two places where the code consults the Unicode database ([\w] of the [re]
    module and [str.lower]) are fixed on ASCII by the definitions below and
    left as section variables on the code points from 128 upwards.

    [math.log2] and the product with [len(pw)] are taken over the real
    numbers: [shannon_entropy_bits] is the real number the double
    approximates.  The three comparisons of the scorer and the rounding to
    one decimal place are decided on integers and proved equal to their
    real-number meaning ([bits_ge_spec], [round_bits_spec]).  The real number
    stays 1/20 away from 40, 60 and 80 ([entropy_threshold_margin]), so the
    comparisons are those of the double.  The rounding is that of the real
    number: see [round_bits] for where the double can round the other way. *)

From Stdlib Require Import List ZArith NArith Bool String Ascii DecimalString Lia Reals Lra.
Import ListNotations.

Local Open Scope Z_scope.

(** ** Strings *)

(** A Python [str]: its code points, in order. *)
Definition pystr : Type := list N.

(** The code points of an ASCII literal. *)
Definition str (s : string) : pystr := map N_of_ascii (list_ascii_of_string s).

Definition in_range (lo hi c : N) : bool := ((lo <=? c) && (c <=? hi))%N.

(** The character sets [[a-z]], [[A-Z]] and [[0-9]] of the patterns. *)
Definition is_lower (c : N) : bool := in_range 97 122 c.
Definition is_upper (c : N) : bool := in_range 65 90 c.
Definition is_digit (c : N) : bool := in_range 48 57 c.

(** [re.search] of a one-character class: some character is in the class. *)
Definition re_search_class (cls : N -> bool) (pw : pystr) : bool := existsb cls pw.

(** [s.startswith(sub)]. *)
Fixpoint startswith (sub s : pystr) : bool :=
  match sub, s with
  | [], _ => true
  | _ :: _, [] => false
  | a :: sub', b :: s' => (a =? b)%N && startswith sub' s'
  end.

(** [sub in s] on strings: [sub] occurs in [s] as a substring. *)
Fixpoint str_in (sub s : pystr) : bool :=
  startswith sub s ||
  match s with
  | [] => false
  | _ :: s' => str_in sub s'
  end.

(** [re.search] of an alternation of literals [(?:l1|l2|...)]. *)
Definition re_search_alt (alts : list pystr) (s : pystr) : bool :=
  existsb (fun alt => str_in alt s) alts.

(** [re.search(r"(.)\1{2,}", pw)]: a character other than the newline (the
    dot does not match it) followed by two more copies of itself. *)
Fixpoint re_search_repeat (pw : pystr) : bool :=
  match pw with
  | a :: ((b :: c :: _) as rest) =>
      (negb (a =? 10)%N && (a =? b)%N && (a =? c)%N) || re_search_repeat rest
  | _ => false
  end.

(** The slice [s[i:j]]. *)
Definition slice (s : pystr) (i j : nat) : pystr := firstn (j - i) (skipn i s).

(** ** The result *)

(** One decimal digit after the point, as [round(bits, 1)] prints it:
    [Tenths 188] is 18.8. *)
Inductive decimal1 : Type := Tenths (t : Z).

(** The dictionary [score_password] returns.  Its keys are fixed; the two keys
    that only the full path sets are [None] when the key is absent. *)
Record Verdict : Type := mkVerdict {
  score : Z;
  label : string;
  reasons : list string;
  entropy_bits : option decimal1;
  length_ : option Z
}.

(** ** Constants of the module *)

Definition COMMON : list pystr := map str
  [ "password"; "123456"; "123456789"; "12345"; "qwerty"; "abc123"; "111111"; "123123";
    "letmein"; "admin"; "welcome"; "iloveyou"; "monkey"; "dragon"; "football"; "baseball";
    "qwertyuiop"; "1234"; "1q2w3e4r"; "passw0rd"; "password1"; "000000" ]%string.

Definition pystr_eqb (a b : pystr) : bool :=
  if list_eq_dec N.eq_dec a b then true else false.

(** [x in COMMON]: set membership. *)
Definition in_set (x : pystr) (s : list pystr) : bool := existsb (pystr_eqb x) s.

Definition numeric_runs : list pystr := map str
  [ "0123"; "1234"; "2345"; "3456"; "4567"; "5678"; "6789" ]%string.

Definition alpha_runs : list pystr := map str
  [ "abcd"; "bcde"; "cdef"; "defg"; "qwer"; "asdf"; "zxcv" ]%string.

Definition kb_rows : list pystr := map str [ "qwertyuiop"; "asdfghjkl"; "zxcvbnm" ]%string.

(** The inner loop over [range(len(row)-3)] with its [break]: whether some
    window [row[i:i+4]] occurs in [low]. *)
Definition row_hit (row low : pystr) : bool :=
  existsb (fun i => str_in (slice row i (i + 4)) low) (seq 0 (List.length row - 3)).

(** [math.log2] on the reals. *)
Definition log2 (x : R) : R := (ln x / ln 2)%R.

(** The tables cut down to Latin-1: the alphanumeric code points of
    128..255 and their lowercase mapping; further code points count as
    caseless symbols. *)
Definition latin1_isalnum (c : N) : bool :=
  ((c =? 170) || (c =? 178) || (c =? 179) || (c =? 181) || (c =? 185) || (c =? 186)
   || in_range 188 190 c || in_range 192 214 c || in_range 216 246 c
   || in_range 248 255 c)%N.

Definition latin1_lower (whole : pystr) (i : nat) : pystr :=
  let c := nth i whole 0%N in
  if in_range 192 214 c || in_range 216 222 c then [(c + 32)%N] else [c].


Section Scorer.

(** What the Unicode database says beyond ASCII: whether a code point is
    alphanumeric ([str.isalnum], which [\w] consults), and the lowercase
    mapping of the character at a position of a string (one code point may
    map to several, and the capital sigma depends on its neighbours). *)
Variable unicode_isalnum : N -> bool.
Variable unicode_lower : pystr -> nat -> pystr.

(** [\w]: alphanumeric or the underscore. *)
Definition is_word (c : N) : bool :=
  if (c <? 128)%N then is_lower c || is_upper c || is_digit c || (c =? 95)%N
  else unicode_isalnum c.

(** [[^\w]]. *)
Definition is_nonword (c : N) : bool := negb (is_word c).

Definition lower_char (whole : pystr) (i : nat) (c : N) : pystr :=
  if is_upper c then [(c + 32)%N]
  else if (c <? 128)%N then [c]
  else unicode_lower whole i.

Fixpoint lower_from (whole : pystr) (i : nat) (rest : pystr) : pystr :=
  match rest with
  | [] => []
  | c :: rest' => lower_char whole i c ++ lower_from whole (S i) rest'
  end.

(** [pw.lower()]. *)
Definition lower (pw : pystr) : pystr := lower_from pw 0 pw.

(** *** [charset_size] *)

Definition charset_size (pw : pystr) : Z :=
  let size := 0 in
  let size := if re_search_class is_lower pw then size + 26 else size in
  let size := if re_search_class is_upper pw then size + 26 else size in
  let size := if re_search_class is_digit pw then size + 10 else size in
  let size := if re_search_class is_nonword pw then size + 33 else size in
  if size =? 0 then 1 else size.

(** *** [shannon_entropy_bits] *)

Definition shannon_entropy_bits (pw : pystr) : R :=
  (INR (List.length pw) * log2 (IZR (charset_size pw)))%R.

(** [shannon_entropy_bits(pw) >= t] for a natural threshold [t], decided on
    integers: [t <= n * log2 c] exactly when [2^t <= c^n]. *)
Definition bits_ge (pw : pystr) (t : Z) : bool :=
  2 ^ t <=? charset_size pw ^ Z.of_nat (List.length pw).

(** [round(shannon_entropy_bits(pw), 1)], taken on the real number: its
    nearest tenth.  With [k = floor (log2 (c^(20 n)))] the value [20 * bits]
    lies in [[k, k+1)], so the nearest tenth is [(k+1)/2] tenths.

    The code rounds the double.  The two agree unless a rounding boundary
    [j/10 + 1/20] lies between the double and the real number, which takes a
    password of millions of characters: 7739617 times the letter a has the
    real entropy 36379603.1500000053 and the double 36379603.1499999985, so
    the code reports 36379603.1 where this definition gives 36379603.2.  The
    theorems below assert a value of [round_bits] at "aaaa" and at charset
    size 1 only, where the double and the real number round alike. *)
Definition round_bits (pw : pystr) : decimal1 :=
  Tenths ((Z.log2 (charset_size pw ^ (20 * Z.of_nat (List.length pw))) + 1) / 2).

(** *** [repeating_or_sequences_penalty] *)

Definition repeating_or_sequences_penalty (pw : pystr) : Z :=
  let penalty := 0 in
  let penalty := if re_search_repeat pw then penalty + 1 else penalty in
  let penalty := if re_search_alt numeric_runs pw then penalty + 1 else penalty in
  let penalty := if re_search_alt alpha_runs (lower pw) then penalty + 1 else penalty in
  fold_left
    (fun penalty row => if row_hit row (lower pw) then penalty + 1 else penalty)
    kb_rows penalty.

(** *** [score_password] *)

(** The four patterns of the variety count, in the order of the list. *)
Definition variety_classes : list (N -> bool) :=
  [ is_lower; is_upper; is_digit; is_nonword ].

(** Steps 2 to 5 of the full path: the running [score] and the [reasons]
    as they stand just before the clamp. *)
Definition run_heuristics (pw : pystr) : Z * list string :=
  let reasons : list string := [] in
  let score := 0 in
  let L := Z.of_nat (List.length pw) in
  let '(score, reasons) :=
    if 16 <=? L then (score + 4, reasons)
    else if 12 <=? L then (score + 3, reasons)
    else if 10 <=? L then (score + 2, reasons)
    else if 8 <=? L then (score + 1, reasons)
    else (score, reasons ++ ["Too short (< 8 characters)."%string]) in
  let cats :=
    fold_left Z.add (map (fun p => Z.b2z (re_search_class p pw)) variety_classes) 0 in
  let score := score + Z.max 0 (cats - 1) in
  let reasons :=
    if cats <=? 1
    then reasons ++ ["Use a mix of lowercase, uppercase, digits, and symbols."%string]
    else reasons in
  let '(score, reasons) :=
    if bits_ge pw 80 then (score + 3, reasons)
    else if bits_ge pw 60 then (score + 2, reasons)
    else if bits_ge pw 40 then (score + 1, reasons)
    else (score,
          reasons ++ ["Low entropy — consider longer length and more variety."%string]) in
  let penalty := repeating_or_sequences_penalty pw in
  let score := score - penalty in
  let reasons :=
    if penalty =? 0 then reasons
    else reasons ++ ["Avoid repeats or easy sequences (e.g., 1234, qwer, aaa)."%string] in
  (score, reasons).

Definition score_password (pw : pystr) : Verdict :=
  match pw with
  | [] => mkVerdict 0 "Empty"%string ["No password provided."%string] None None
  | _ :: _ =>
      if in_set (lower pw) COMMON
      then mkVerdict 1 "Very Weak"%string
             ["Common password (easily guessed)."%string] None None
      else
        let L := Z.of_nat (List.length pw) in
        let '(score, reasons) := run_heuristics pw in
        let score := Z.max 0 (Z.min 10 score) in
        let label :=
          if 9 <=? score then "Excellent"%string
          else if 7 <=? score then "Strong"%string
          else if 5 <=? score then "Moderate"%string
          else if 3 <=? score then "Weak"%string
          else "Very Weak"%string in
        mkVerdict score label reasons (Some (round_bits pw)) (Some L)
  end.



(** *** [main]

    The command line and the hidden prompt are the inputs, the lines handed
    to [print] the output.  [sys.argv] is [argv]; [typed] is what [getpass]
    returns when it is called. *)

(** The [repr] of the float that [round(bits, 1)] returned, as the f-string
    prints it; it belongs to the runtime. *)
Variable float_repr : decimal1 -> string.










(** ** The scorer as the specification words it

    The definitions of this part follow the specification's sentences, not
    the code; the theorems below compare the two. *)

(** Clamp [x] to [[lo, hi]]. *)
Definition clamp (x lo hi : Z) : Z :=
  if x <? lo then lo else if hi <? x then hi else x.

(** 4 if length >= 16, else 3 if >= 12, else 2 if >= 10, else 1 if >= 8, else 0. *)
Definition spec_length_tier (len : Z) : Z :=
  if 16 <=? len then 4
  else if 12 <=? len then 3
  else if 10 <=? len then 2
  else if 8 <=? len then 1
  else 0.

(** How many of the four classes are present at least once. *)
Definition spec_class_count (pw : pystr) : Z :=
  Z.of_nat
    (List.length
       (filter (fun cls : N -> bool => existsb cls pw)
          [is_lower; is_upper; is_digit; is_nonword])).

Definition spec_variety_points (pw : pystr) : Z := Z.max 0 (spec_class_count pw - 1).

(** 3 if the entropy is at least 80 bits, 2 if at least 60, 1 if at least 40,
    else 0; the entropy is the real number. *)
Definition spec_entropy_tier (pw : pystr) : Z :=
  if Rle_dec 80 (shannon_entropy_bits pw) then 3
  else if Rle_dec 60 (shannon_entropy_bits pw) then 2
  else if Rle_dec 40 (shannon_entropy_bits pw) then 1
  else 0.

Definition spec_score (pw : pystr) : Z :=
  clamp
    (spec_length_tier (Z.of_nat (List.length pw)) + spec_variety_points pw
     + spec_entropy_tier pw - repeating_or_sequences_penalty pw)
    0 10.

(** The label of a score. *)
Definition spec_label (s : Z) : string :=
  if 9 <=? s then "Excellent"%string
  else if 7 <=? s then "Strong"%string
  else if 5 <=? s then "Moderate"%string
  else if 3 <=? s then "Weak"%string
  else "Very Weak"%string.

(** The sum of the sizes of the classes present. *)
Definition spec_class_sum (pw : pystr) : Z :=
  (if existsb is_lower pw then 26 else 0) + (if existsb is_upper pw then 26 else 0)
  + (if existsb is_digit pw then 10 else 0) + (if existsb is_nonword pw then 33 else 0).

(** A character in none of the four classes: a word character that is not
    one of a-z, A-Z, 0-9. *)
Definition unclassed (c : N) : bool :=
  is_word c && negb (is_lower c) && negb (is_upper c) && negb (is_digit c).

(** ** How far the entropy stays from the thresholds

    [below c n t] is [n * log2 c < t - 1/20] and [above c n t] is
    [t + 1/20 <= n * log2 c], both decided on integers after scaling by 20. *)
Definition below (c : Z) (n : nat) (t : Z) : bool :=
  negb (2 ^ (20 * t - 1) <=? c ^ Z.of_nat (20 * n)).

Definition above (c : Z) (n : nat) (t : Z) : bool :=
  2 ^ (20 * t + 1) <=? c ^ Z.of_nat (20 * n).

Definition charset_values : list Z := [1; 10; 26; 33; 36; 43; 52; 59; 62; 69; 85; 95].

Definition thresholds : list Z := [40; 60; 80].

(** For each charset size above 1, the greatest lengths whose entropy is
    below 40, below 60 and below 80 bits. *)
Definition cutoffs : list (Z * (Z * Z * Z)) :=
  [ (10, (12, 18, 24)); (26, (8, 12, 17)); (33, (7, 11, 15)); (36, (7, 11, 15));
    (43, (7, 11, 14)); (52, (7, 10, 14)); (59, (6, 10, 13)); (62, (6, 10, 13));
    (69, (6, 9, 13)); (85, (6, 9, 12)); (95, (6, 9, 12)) ].

Definition cutoff (c t : Z) : option nat :=
  match find (fun e => fst e =? c) cutoffs with
  | Some (_, (n40, n60, n80)) =>
      if t =? 40 then Some (Z.to_nat n40)
      else if t =? 60 then Some (Z.to_nat n60)
      else if t =? 80 then Some (Z.to_nat n80)
      else None
  | None => None
  end.

Definition cutoff_ok (c t : Z) : bool :=
  (c =? 1)
  || match cutoff c t with
     | Some n => below c n t && above c (S n) t
     | None => false
     end.

(** ** Names used by the further properties *)

(** The four notes of the full path, in the order the code appends them. *)
Definition note_too_short : string := "Too short (< 8 characters)."%string.
Definition note_mix : string :=
  "Use a mix of lowercase, uppercase, digits, and symbols."%string.
Definition note_low_entropy : string :=
  "Low entropy — consider longer length and more variety."%string.
Definition note_patterns : string :=
  "Avoid repeats or easy sequences (e.g., 1234, qwer, aaa)."%string.

(** The five labels of the mapping after the clamp. *)
Definition full_path_labels : list string :=
  [ "Very Weak"; "Weak"; "Moderate"; "Strong"; "Excellent" ]%string.

(** The entropy tier of a number of bits, as the comparisons of the code
    read on the reals. *)
Definition tier_of_bits (b : R) : Z :=
  if Rle_dec 80 b then 3
  else if Rle_dec 60 b then 2
  else if Rle_dec 40 b then 1
  else 0.

(** The ASCII part of [str.lower], and the strings made of ASCII only. *)
Definition ascii_lower (c : N) : N := if is_upper c then (c + 32)%N else c.

Definition is_ascii (c : N) : bool := (c <? 128)%N.

(** [sub] occurs in [s] as a contiguous substring. *)
Definition contains (sub s : pystr) : Prop :=
  exists pre post, s = pre ++ sub ++ post.

(** Some character other than the newline stands three times in a row. *)
Definition has_triple (pw : pystr) : Prop :=
  exists pre c post, pw = pre ++ c :: c :: c :: post /\ c <> 10%N.

(** The windows of four consecutive keys of a keyboard row. *)
Definition windows (row : pystr) : list pystr :=
  map (fun i => slice row i (i + 4)) (seq 0 (List.length row - 3)).

(** * Properties *)

(** ** Logarithms and integer powers *)

Lemma ln2_pos : (0 < ln 2)%R.
Proof. rewrite <- ln_1. apply ln_increasing; lra. Qed.

Lemma ln_le_iff (x y : R) : (0 < x)%R -> (0 < y)%R -> (x <= y)%R <-> (ln x <= ln y)%R.
Proof.
  intros Hx Hy. split; intros H.
  - destruct H as [H | ->]; [left; now apply ln_increasing | right; reflexivity].
  - destruct H as [H | H]; [left; now apply ln_lt_inv | right; now apply ln_inv].
Qed.

(** [2^t <= c^n] on integers is [t <= n * log2 c] on the reals. *)
Lemma pow2_le_pow_log2 (c : Z) (n : nat) (t : Z) :
  1 <= c -> 0 <= t ->
  2 ^ t <= c ^ Z.of_nat n <-> (IZR t <= INR n * log2 (IZR c))%R.
Proof.
  intros Hc Ht.
  assert (HC : (0 < IZR c)%R) by (apply IZR_lt; lia).
  rewrite <- (Z2Nat.id t) by exact Ht. set (m := Z.to_nat t).
  rewrite <- INR_IZR_INZ.
  assert (E : 2 ^ Z.of_nat m <= c ^ Z.of_nat n <-> (2 ^ m <= IZR c ^ n)%R).
  { rewrite !pow_IZR. split; [apply IZR_le | apply le_IZR]. }
  rewrite E, (ln_le_iff (2 ^ m) (IZR c ^ n)) by (apply pow_lt; lra).
  rewrite !ln_pow by lra. unfold log2.
  pose proof ln2_pos as H2.
  replace (INR n * (ln (IZR c) / ln 2))%R with (INR n * ln (IZR c) / ln 2)%R
    by (field; lra).
  split; intros H.
  - apply Rmult_le_reg_r with (ln 2); [exact H2 |].
    replace (INR n * ln (IZR c) / ln 2 * ln 2)%R with (INR n * ln (IZR c))%R
      by (field; lra).
    exact H.
  - apply Rmult_le_compat_r with (r := ln 2) in H; [| lra].
    replace (INR n * ln (IZR c) / ln 2 * ln 2)%R with (INR n * ln (IZR c))%R in H
      by (field; lra).
    exact H.
Qed.

Lemma log2_1 : log2 1 = 0%R.
Proof. unfold log2. rewrite ln_1. pose proof ln2_pos. field. lra. Qed.

(** ** [charset_size] *)

Lemma charset_size_class_sum (pw : pystr) :
  charset_size pw = if spec_class_sum pw =? 0 then 1 else spec_class_sum pw.
Proof.
  unfold charset_size, spec_class_sum, re_search_class.
  destruct (existsb is_lower pw), (existsb is_upper pw),
    (existsb is_digit pw), (existsb is_nonword pw); reflexivity.
Qed.

Lemma charset_size_values (pw : pystr) :
  In (charset_size pw) charset_values.
Proof.
  unfold charset_size, re_search_class.
  destruct (existsb is_lower pw), (existsb is_upper pw),
    (existsb is_digit pw), (existsb is_nonword pw); cbn; tauto.
Qed.

Lemma charset_size_pos (pw : pystr) : 1 <= charset_size pw.
Proof.
  pose proof (charset_size_values pw) as H. cbn in H.
  repeat (destruct H as [<- | H]; [lia |]). contradiction.
Qed.

(** ** Entropy *)

Lemma bits_ge_spec (pw : pystr) (t : Z) :
  0 <= t -> bits_ge pw t = true <-> (IZR t <= shannon_entropy_bits pw)%R.
Proof.
  intros Ht. unfold bits_ge, shannon_entropy_bits.
  rewrite Z.leb_le. apply pow2_le_pow_log2; [apply charset_size_pos | exact Ht].
Qed.

Lemma bits_lt_spec (pw : pystr) (t : Z) :
  0 <= t -> bits_ge pw t = false <-> (shannon_entropy_bits pw < IZR t)%R.
Proof.
  intros Ht. pose proof (bits_ge_spec pw t Ht) as H.
  destruct (bits_ge pw t); split; intros H'; try discriminate; try reflexivity.
  - exfalso. apply (Rlt_irrefl (IZR t)). apply Rle_lt_trans with (2 := H').
    now apply H.
  - apply Rnot_le_lt. intros C. apply H in C. discriminate.
Qed.

(** [round_bits] is the nearest tenth of the entropy. *)
Lemma round_bits_spec (pw : pystr) (t : Z) :
  round_bits pw = Tenths t ->
  (IZR t / 10 - 1 / 20 <= shannon_entropy_bits pw < IZR t / 10 + 1 / 20)%R.
Proof.
  unfold round_bits. intros E.
  set (c := charset_size pw) in *. set (n := List.length pw) in *.
  assert (Hc : 1 <= c) by apply charset_size_pos.
  set (k := Z.log2 (c ^ (20 * Z.of_nat n))) in *.
  injection E as E.
  assert (Hpow : 0 < c ^ (20 * Z.of_nat n)) by (apply Z.pow_pos_nonneg; lia).
  assert (Hk : 0 <= k) by apply Z.log2_nonneg.
  destruct (Z.log2_spec _ Hpow) as [Hlo Hhi]. fold k in Hlo, Hhi.
  replace (20 * Z.of_nat n) with (Z.of_nat (20 * n)) in Hlo, Hhi by lia.
  apply (pow2_le_pow_log2 c (20 * n) k Hc Hk) in Hlo.
  assert (Hhi' : (INR (20 * n) * log2 (IZR c) < IZR (Z.succ k))%R).
  { apply Rnot_le_lt. intros C.
    apply (pow2_le_pow_log2 c (20 * n) (Z.succ k) Hc) in C; lia. }
  assert (Ht : 2 * t <= k + 1 <= 2 * t + 1).
  { subst t. pose proof (Z.div_mod (k + 1) 2 ltac:(lia)).
    pose proof (Z.mod_pos_bound (k + 1) 2 ltac:(lia)). lia. }
  unfold shannon_entropy_bits. fold c n.
  rewrite mult_INR in Hlo, Hhi'. rewrite succ_IZR in Hhi'.
  assert (E20 : INR 20 = 20%R) by (rewrite INR_IZR_INZ; reflexivity).
  rewrite E20, Rmult_assoc in Hlo, Hhi'.
  set (x := (INR n * log2 (IZR c))%R) in *.
  assert (H1 : (2 * IZR t - 1 <= IZR k)%R).
  { replace (2 * IZR t - 1)%R with (IZR (2 * t - 1))
      by (rewrite minus_IZR, mult_IZR; reflexivity).
    apply IZR_le. lia. }
  assert (H2 : (IZR k <= 2 * IZR t)%R).
  { rewrite <- mult_IZR. apply IZR_le. lia. }
  split; lra.
Qed.

(** C6: [charset_size] is the sum of the sizes 26, 26, 10 and 33 of the
    classes present, 1 when no class is present, hence never 0; it is 26 on
    "abc", 36 on "abc123" and 95 on "Abc123!". *)
Theorem charset_size_correct :
  (forall pw, charset_size pw =
              if spec_class_count pw =? 0 then 1 else spec_class_sum pw)
  /\ (forall pw, charset_size pw <> 0)
  /\ charset_size (str "abc") = 26
  /\ charset_size (str "abc123") = 36
  /\ charset_size (str "Abc123!") = 95.
Proof.
  split; [| split; [| repeat split; reflexivity]].
  - intros pw. rewrite charset_size_class_sum.
    unfold spec_class_count, spec_class_sum. cbn [filter].
    destruct (existsb is_lower pw), (existsb is_upper pw),
      (existsb is_digit pw), (existsb is_nonword pw); reflexivity.
  - intros pw. pose proof (charset_size_pos pw). lia.
Qed.

Lemma forallb_unclassed (pw : pystr) :
  forallb unclassed pw =
  negb (existsb is_lower pw) && negb (existsb is_upper pw)
  && negb (existsb is_digit pw) && negb (existsb is_nonword pw).
Proof.
  induction pw as [| a pw IH]; [reflexivity |].
  cbn [forallb existsb]. rewrite IH. unfold unclassed, is_nonword.
  destruct (is_word a), (is_lower a), (is_upper a), (is_digit a); cbn;
    try reflexivity;
    destruct (existsb is_lower pw), (existsb is_upper pw),
      (existsb is_digit pw), (existsb (fun c => negb (is_word c)) pw); reflexivity.
Qed.

Lemma unclassed_char (c : N) :
  unclassed c = true <-> c = 95%N \/ (128 <= c)%N /\ unicode_isalnum c = true.
Proof.
  unfold unclassed, is_word, is_lower, is_upper, is_digit, in_range.
  destruct (N.ltb_spec c 128) as [Hlt | Hge].
  - destruct (N.eqb_spec c 95) as [-> | Hne].
    + split; [left; reflexivity | intros _; reflexivity].
    + rewrite orb_false_r.
      destruct ((97 <=? c)%N && (c <=? 122)%N), ((65 <=? c)%N && (c <=? 90)%N),
        ((48 <=? c)%N && (c <=? 57)%N); cbn;
        (split; [discriminate | intros [E | [G _]]; [contradiction | lia]]).
  - assert (E1 : (c <=? 122)%N = false) by (apply N.leb_gt; lia).
    assert (E2 : (c <=? 90)%N = false) by (apply N.leb_gt; lia).
    assert (E3 : (c <=? 57)%N = false) by (apply N.leb_gt; lia).
    rewrite E1, E2, E3, !andb_false_r. cbn. rewrite !andb_true_r.
    split; [intros H; right; split; [lia | exact H] | intros [-> | [_ H]]; [lia | exact H]].
Qed.

(** C7, as amended: the fallback value 1 of [charset_size] occurs exactly on
    the strings, the empty one among them, whose characters all lie in none of
    the four classes; such a character is the underscore or an alphanumeric
    code point beyond ASCII.  Any other string has a class present and a
    charset of at least 10. *)
Theorem charset_size_fallback :
  (forall pw, charset_size pw = 1 <-> forallb unclassed pw = true)
  /\ (forall pw, forallb unclassed pw = false ->
                 0 < spec_class_count pw /\ 10 <= charset_size pw)
  /\ (forall c, unclassed c = true <->
                c = 95%N \/ (128 <= c)%N /\ unicode_isalnum c = true).
Proof.
  split; [| split; [| exact unclassed_char]]; intros pw.
  - rewrite forallb_unclassed. unfold charset_size, re_search_class.
    destruct (existsb is_lower pw), (existsb is_upper pw),
      (existsb is_digit pw), (existsb is_nonword pw); cbn;
      split; (discriminate || reflexivity).
  - rewrite forallb_unclassed.
    unfold charset_size, spec_class_count, re_search_class. cbn [filter].
    destruct (existsb is_lower pw), (existsb is_upper pw),
      (existsb is_digit pw), (existsb is_nonword pw); cbn;
      (discriminate || (intros _; lia)).
Qed.

(** ** [repeating_or_sequences_penalty] *)

Lemma penalty_as_sum (pw : pystr) :
  repeating_or_sequences_penalty pw =
    Z.b2z (re_search_repeat pw)
    + Z.b2z (re_search_alt numeric_runs pw)
    + Z.b2z (re_search_alt alpha_runs (lower pw))
    + (Z.b2z (row_hit (str "qwertyuiop") (lower pw))
       + Z.b2z (row_hit (str "asdfghjkl") (lower pw))
       + Z.b2z (row_hit (str "zxcvbnm") (lower pw))).
Proof.
  unfold repeating_or_sequences_penalty.
  change kb_rows with [str "qwertyuiop"; str "asdfghjkl"; str "zxcvbnm"].
  cbn [fold_left].
  destruct (re_search_repeat pw), (re_search_alt numeric_runs pw),
    (re_search_alt alpha_runs (lower pw)),
    (row_hit (str "qwertyuiop") (lower pw)),
    (row_hit (str "asdfghjkl") (lower pw)),
    (row_hit (str "zxcvbnm") (lower pw)); reflexivity.
Qed.

Lemma b2z_bounds (b : bool) : 0 <= Z.b2z b <= 1.
Proof. destruct b; cbn; lia. Qed.

Lemma penalty_nonneg (pw : pystr) : 0 <= repeating_or_sequences_penalty pw.
Proof.
  rewrite penalty_as_sum.
  pose proof (b2z_bounds (re_search_repeat pw)).
  pose proof (b2z_bounds (re_search_alt numeric_runs pw)).
  pose proof (b2z_bounds (re_search_alt alpha_runs (lower pw))).
  pose proof (b2z_bounds (row_hit (str "qwertyuiop") (lower pw))).
  pose proof (b2z_bounds (row_hit (str "asdfghjkl") (lower pw))).
  pose proof (b2z_bounds (row_hit (str "zxcvbnm") (lower pw))).
  lia.
Qed.

(** C9, as amended: the penalty is the sum of six indicators, one each for
    the repeat, the numeric-run and the alphabetic-run detector and one per
    keyboard row, so it lies between 0 and 6. *)
Theorem penalty_bounds (pw : pystr) :
  repeating_or_sequences_penalty pw =
    Z.b2z (re_search_repeat pw)
    + Z.b2z (re_search_alt numeric_runs pw)
    + Z.b2z (re_search_alt alpha_runs (lower pw))
    + (Z.b2z (row_hit (str "qwertyuiop") (lower pw))
       + Z.b2z (row_hit (str "asdfghjkl") (lower pw))
       + Z.b2z (row_hit (str "zxcvbnm") (lower pw)))
  /\ 0 <= repeating_or_sequences_penalty pw <= 6.
Proof.
  split; [apply penalty_as_sum |].
  rewrite penalty_as_sum.
  pose proof (b2z_bounds (re_search_repeat pw)).
  pose proof (b2z_bounds (re_search_alt numeric_runs pw)).
  pose proof (b2z_bounds (re_search_alt alpha_runs (lower pw))).
  pose proof (b2z_bounds (row_hit (str "qwertyuiop") (lower pw))).
  pose proof (b2z_bounds (row_hit (str "asdfghjkl") (lower pw))).
  pose proof (b2z_bounds (row_hit (str "zxcvbnm") (lower pw))).
  lia.
Qed.

(** The double that [math.log2] and the product return differs from the
    real number by rounding only.  The next lemmas show that the real number
    keeps a distance of 1/20 from each of 40, 60 and 80, so a comparison on
    either takes the same branch. *)
Lemma INR_20 : INR 20 = 20%R.
Proof. rewrite INR_IZR_INZ. reflexivity. Qed.

Lemma above_sound (c : Z) (n : nat) (t : Z) :
  1 <= c -> 1 <= t -> above c n t = true ->
  (IZR t + 1 / 20 <= INR n * log2 (IZR c))%R.
Proof.
  intros Hc Ht H. apply Z.leb_le in H.
  apply (pow2_le_pow_log2 c (20 * n) (20 * t + 1) Hc ltac:(lia)) in H.
  rewrite mult_INR, INR_20, Rmult_assoc, plus_IZR, mult_IZR in H. lra.
Qed.

Lemma below_sound (c : Z) (n : nat) (t : Z) :
  1 <= c -> 1 <= t -> below c n t = true ->
  (INR n * log2 (IZR c) <= IZR t - 1 / 20)%R.
Proof.
  intros Hc Ht H. apply negb_true_iff, Z.leb_gt in H.
  assert (G : (INR (20 * n) * log2 (IZR c) < IZR (20 * t - 1))%R).
  { apply Rnot_le_lt. intros C.
    apply (pow2_le_pow_log2 c (20 * n) (20 * t - 1) Hc ltac:(lia)) in C. lia. }
  rewrite mult_INR, INR_20, Rmult_assoc, minus_IZR, mult_IZR in G. lra.
Qed.

Lemma above_mono (c : Z) (n m : nat) (t : Z) :
  1 <= c -> (n <= m)%nat -> above c n t = true -> above c m t = true.
Proof.
  unfold above. intros Hc Hnm H. apply Z.leb_le in H. apply Z.leb_le.
  apply Z.le_trans with (1 := H). apply Z.pow_le_mono_r; lia.
Qed.

Lemma below_mono (c : Z) (n m : nat) (t : Z) :
  1 <= c -> (m <= n)%nat -> below c n t = true -> below c m t = true.
Proof.
  unfold below. intros Hc Hnm H.
  apply negb_true_iff, Z.leb_gt in H. apply negb_true_iff, Z.leb_gt.
  apply Z.le_lt_trans with (2 := H). apply Z.pow_le_mono_r; lia.
Qed.

Lemma cutoff_table :
  forallb (fun c => forallb (cutoff_ok c) thresholds) charset_values = true.
Proof. vm_compute. reflexivity. Qed.

Lemma entropy_threshold_margin (pw : pystr) (t : Z) :
  In t thresholds ->
  (shannon_entropy_bits pw <= IZR t - 1 / 20)%R
  \/ (IZR t + 1 / 20 <= shannon_entropy_bits pw)%R.
Proof.
  intros Ht. unfold shannon_entropy_bits.
  assert (Ht1 : 40 <= t) by (cbn in Ht; destruct Ht as [<- | [<- | [<- | []]]]; lia).
  pose proof (charset_size_pos pw) as Hc.
  pose proof cutoff_table as M.
  rewrite forallb_forall in M. specialize (M _ (charset_size_values pw)).
  rewrite forallb_forall in M. specialize (M t Ht).
  unfold cutoff_ok in M. apply orb_true_iff in M. destruct M as [M | M].
  - apply Z.eqb_eq in M. rewrite M, log2_1, Rmult_0_r. left.
    assert (40 <= IZR t)%R by (apply IZR_le; exact Ht1). lra.
  - destruct (cutoff (charset_size pw) t) as [n |]; [| discriminate].
    apply andb_true_iff in M. destruct M as [Hb Ha].
    destruct (le_lt_dec (List.length pw) n) as [Hn | Hn].
    + left. apply below_sound; [exact Hc | lia |].
      apply below_mono with (n := n); assumption.
    + right. apply above_sound; [exact Hc | lia |].
      apply above_mono with (n := S n); [exact Hc | lia | exact Ha].
Qed.

(** Hence any approximation [b] of the entropy that is off by less than
    1/20, the double of the code among them, compares with 40, 60 and 80 as
    the real number does. *)
Lemma entropy_tier_robust (pw : pystr) (b : R) (t : Z) :
  (Rabs (b - shannon_entropy_bits pw) < 1 / 20)%R -> In t thresholds ->
  (IZR t <= b)%R <-> (IZR t <= shannon_entropy_bits pw)%R.
Proof.
  intros Hb Ht. apply Rabs_def2 in Hb. destruct Hb as [Hb1 Hb2].
  destruct (entropy_threshold_margin pw t Ht) as [H | H]; split; intros G; lra.
Qed.

(** ** [score_password] *)

Lemma in_set_In (x : pystr) (s : list pystr) : in_set x s = true <-> In x s.
Proof.
  unfold in_set, pystr_eqb. rewrite existsb_exists. split.
  - intros [y [Hy E]]. destruct (list_eq_dec N.eq_dec x y); [now subst | discriminate].
  - intros H. exists x. split; [exact H |].
    destruct (list_eq_dec N.eq_dec x x); [reflexivity | contradiction].
Qed.

Lemma variety_count_eq (pw : pystr) :
  fold_left Z.add (map (fun p => Z.b2z (re_search_class p pw)) variety_classes) 0
  = spec_class_count pw.
Proof.
  unfold spec_class_count, variety_classes, re_search_class. cbn [map fold_left filter].
  destruct (existsb is_lower pw), (existsb is_upper pw),
    (existsb is_digit pw), (existsb is_nonword pw); reflexivity.
Qed.

Lemma spec_entropy_tier_eq (pw : pystr) :
  spec_entropy_tier pw =
  if bits_ge pw 80 then 3 else if bits_ge pw 60 then 2 else if bits_ge pw 40 then 1 else 0.
Proof.
  unfold spec_entropy_tier.
  pose proof (bits_ge_spec pw 80 ltac:(lia)) as H80.
  pose proof (bits_ge_spec pw 60 ltac:(lia)) as H60.
  pose proof (bits_ge_spec pw 40 ltac:(lia)) as H40.
  destruct (Rle_dec 80 (shannon_entropy_bits pw)) as [G | G].
  { apply H80 in G. now rewrite G. }
  destruct (bits_ge pw 80); [exfalso; apply G, H80; reflexivity |].
  destruct (Rle_dec 60 (shannon_entropy_bits pw)) as [G' | G'].
  { apply H60 in G'. now rewrite G'. }
  destruct (bits_ge pw 60); [exfalso; apply G', H60; reflexivity |].
  destruct (Rle_dec 40 (shannon_entropy_bits pw)) as [G'' | G''].
  { apply H40 in G''. now rewrite G''. }
  destruct (bits_ge pw 40); [exfalso; apply G'', H40; reflexivity | reflexivity].
Qed.

(** The running score before the clamp is the sum of the three tiers less
    the penalty. *)
Lemma run_heuristics_score (pw : pystr) :
  fst (run_heuristics pw) =
  spec_length_tier (Z.of_nat (List.length pw)) + spec_variety_points pw
  + spec_entropy_tier pw - repeating_or_sequences_penalty pw.
Proof.
  rewrite spec_entropy_tier_eq.
  unfold run_heuristics, spec_length_tier, spec_variety_points.
  rewrite variety_count_eq.
  destruct (16 <=? Z.of_nat (List.length pw)); [|
  destruct (12 <=? Z.of_nat (List.length pw)); [|
  destruct (10 <=? Z.of_nat (List.length pw)); [|
  destruct (8 <=? Z.of_nat (List.length pw))]]];
    (destruct (bits_ge pw 80); [|
     destruct (bits_ge pw 60); [|
     destruct (bits_ge pw 40)]]); cbn [fst]; lia.
Qed.

Lemma spec_tiers_bounds (pw : pystr) :
  0 <= spec_length_tier (Z.of_nat (List.length pw)) <= 4
  /\ 0 <= spec_variety_points pw <= 3
  /\ 0 <= spec_entropy_tier pw <= 3.
Proof.
  rewrite spec_entropy_tier_eq. unfold spec_length_tier, spec_variety_points.
  unfold spec_class_count. cbn [filter].
  repeat split;
    repeat match goal with
      | |- context [if ?b then _ else _] => destruct b
      end; cbn; lia.
Qed.

(** The verdict of the full path, field by field. *)
Lemma score_password_full (pw : pystr) :
  pw <> [] -> in_set (lower pw) COMMON = false ->
  score_password pw =
  mkVerdict (Z.max 0 (Z.min 10 (fst (run_heuristics pw))))
            (spec_label (Z.max 0 (Z.min 10 (fst (run_heuristics pw)))))
            (snd (run_heuristics pw))
            (Some (round_bits pw))
            (Some (Z.of_nat (List.length pw))).
Proof.
  intros Hne Hbl. destruct pw as [| a pw]; [contradiction |].
  unfold score_password. rewrite Hbl.
  destruct (run_heuristics (a :: pw)) as [s r]. reflexivity.
Qed.

(** C1: the score of every verdict is an integer between 0 and 10. *)
Theorem score_in_range (pw : pystr) : 0 <= score (score_password pw) <= 10.
Proof.
  destruct pw as [| a pw]; [cbn; lia |].
  destruct (in_set (lower (a :: pw)) COMMON) eqn:Hbl.
  - unfold score_password. rewrite Hbl. cbn. lia.
  - rewrite score_password_full by (discriminate || assumption). cbn [score]. lia.
Qed.

(** C2: on a non-empty password that is not in the blacklist the score is
    clamp(lengthTier + varietyPoints + entropyTier - patternPenalty, 0, 10). *)
Theorem score_formula (pw : pystr) :
  pw <> [] -> ~ In (lower pw) COMMON ->
  score (score_password pw) = spec_score pw.
Proof.
  intros Hne Hbl.
  assert (Hbl' : in_set (lower pw) COMMON = false).
  { destruct (in_set (lower pw) COMMON) eqn:E; [| reflexivity].
    exfalso. apply Hbl, in_set_In, E. }
  rewrite score_password_full by assumption. cbn [score].
  unfold spec_score. rewrite <- run_heuristics_score. unfold clamp.
  destruct (Z.ltb_spec (fst (run_heuristics pw)) 0),
    (Z.ltb_spec 10 (fst (run_heuristics pw))); lia.
Qed.

(** C3, as amended: on every non-empty password the label is the function
    [spec_label] of the score: 9 and more is "Excellent", 7 and 8 "Strong",
    5 and 6 "Moderate", 3 and 4 "Weak", less "Very Weak"; checked at 0, 2, 3,
    4, 5, 6, 7, 8, 9 and 10.  The empty string is outside the mapping: its
    verdict pairs score 0 with "Empty". *)
Theorem label_of_score :
  (forall pw, pw <> [] ->
              label (score_password pw) = spec_label (score (score_password pw)))
  /\ (forall s, spec_label s =
                if 9 <=? s then "Excellent"%string
                else if 7 <=? s then "Strong"%string
                else if 5 <=? s then "Moderate"%string
                else if 3 <=? s then "Weak"%string
                else "Very Weak"%string)
  /\ map spec_label [0; 2; 3; 4; 5; 6; 7; 8; 9; 10] =
     [ "Very Weak"; "Very Weak"; "Weak"; "Weak"; "Moderate"; "Moderate";
       "Strong"; "Strong"; "Excellent"; "Excellent" ]%string.
Proof.
  split; [| split; reflexivity].
  intros pw Hne. destruct (in_set (lower pw) COMMON) eqn:Hbl.
  - destruct pw as [| a pw]; [contradiction |].
    unfold score_password. rewrite Hbl. reflexivity.
  - rewrite score_password_full by assumption. reflexivity.
Qed.

(** C4: the empty string gets score 0, label "Empty", the one reason
    "No password provided.", and neither [entropy_bits] nor [length]. *)
Theorem empty_verdict :
  score_password [] =
    mkVerdict 0 "Empty" ["No password provided."%string] None None
  /\ entropy_bits (score_password []) = None
  /\ length_ (score_password []) = None.
Proof. repeat split. Qed.

(** C5: a non-empty password whose lowercasing is in the blacklist gets
    score 1, label "Very Weak", the one reason "Common password (easily
    guessed).", and neither [entropy_bits] nor [length], whatever the
    heuristics would say. *)
Theorem blacklisted_verdict (pw : pystr) :
  pw <> [] -> In (lower pw) COMMON ->
  score_password pw =
    mkVerdict 1 "Very Weak" ["Common password (easily guessed)."%string] None None.
Proof.
  intros Hne Hbl. apply in_set_In in Hbl.
  destruct pw as [| a pw]; [contradiction |].
  unfold score_password. rewrite Hbl. reflexivity.
Qed.

(** C10: before the clamp the running score is at most 10, so [min(10, _)]
    leaves it as it is and the final score is [max(0, _)] of it. *)
Theorem clamp_upper_not_binding (pw : pystr) :
  pw <> [] -> ~ In (lower pw) COMMON ->
  fst (run_heuristics pw) <= 10
  /\ Z.min 10 (fst (run_heuristics pw)) = fst (run_heuristics pw)
  /\ score (score_password pw) = Z.max 0 (fst (run_heuristics pw)).
Proof.
  intros Hne Hbl.
  assert (Hbl' : in_set (lower pw) COMMON = false).
  { destruct (in_set (lower pw) COMMON) eqn:E; [| reflexivity].
    exfalso. apply Hbl, in_set_In, E. }
  assert (Hle : fst (run_heuristics pw) <= 10).
  { rewrite run_heuristics_score.
    pose proof (spec_tiers_bounds pw) as [H1 [H2 H3]].
    pose proof (penalty_nonneg pw) as H4. lia. }
  rewrite score_password_full by assumption. cbn [score]. lia.
Qed.

(** C8: the entropy is [len(pw) * log2(charset_size(pw))], 0 on the empty
    string and [4 * log2 26] on "aaaa", where the verdict carries it rounded
    to 18.8. *)
Theorem entropy_correct :
  (forall pw, shannon_entropy_bits pw =
              (INR (List.length pw) * (ln (IZR (charset_size pw)) / ln 2))%R)
  /\ shannon_entropy_bits [] = 0%R
  /\ charset_size (str "aaaa") = 26
  /\ shannon_entropy_bits (str "aaaa") = (4 * log2 26)%R
  /\ entropy_bits (score_password (str "aaaa")) = Some (Tenths 188)
  /\ (188 / 10 - 1 / 20 <= 4 * log2 26 < 188 / 10 + 1 / 20)%R.
Proof.
  assert (E : shannon_entropy_bits (str "aaaa") = (4 * log2 26)%R).
  { unfold shannon_entropy_bits.
    replace (charset_size (str "aaaa")) with 26 by reflexivity.
    replace (INR (List.length (str "aaaa"))) with 4%R by (cbn; lra).
    reflexivity. }
  split; [reflexivity |].
  split; [unfold shannon_entropy_bits; cbn; lra |].
  split; [reflexivity |].
  split; [exact E |].
  split; [vm_compute; reflexivity |].
  rewrite <- E. apply round_bits_spec. vm_compute. reflexivity.
Qed.

(** ** Remarks on the early returns and the clamp *)

(** The empty verdict pairs score 0 with "Empty", a label outside the
    mapping of the full path. *)
Remark empty_label_outside_mapping :
  label (score_password []) = "Empty"%string
  /\ spec_label (score (score_password [])) = "Very Weak"%string.
Proof. split; reflexivity. Qed.

(** The lower side of the clamp does bind: "aaa1234" reaches -1. *)
Remark lower_clamp_binds :
  fst (run_heuristics (str "aaa1234")) = -1
  /\ score (score_password (str "aaa1234")) = 0.
Proof. split; vm_compute; reflexivity. Qed.

(** The underscore is in none of the four classes, whatever the tables. *)
Remark charset_size_underscore :
  spec_class_count (str "_") = 0 /\ charset_size (str "_") = 1.
Proof. split; reflexivity. Qed.

(** ** Further properties of [score_password] *)

Lemma not_in_set (x : pystr) (s : list pystr) : ~ In x s -> in_set x s = false.
Proof.
  intros H. destruct (in_set x s) eqn:E; [| reflexivity].
  exfalso. apply H, in_set_In, E.
Qed.

Lemma bits_ge_mono (pw : pystr) (t t' : Z) :
  0 <= t <= t' -> bits_ge pw t' = true -> bits_ge pw t = true.
Proof.
  unfold bits_ge. intros Ht H. apply Z.leb_le in H. apply Z.leb_le.
  apply Z.le_trans with (2 := H). apply Z.pow_le_mono_r; lia.
Qed.

(** The notes as they stand before the clamp: each of the four is appended
    under its own condition, in this order. *)
Lemma run_heuristics_reasons (pw : pystr) :
  snd (run_heuristics pw) =
    (if Z.of_nat (List.length pw) <? 8 then [note_too_short] else [])
    ++ (if spec_class_count pw <=? 1 then [note_mix] else [])
    ++ (if bits_ge pw 40 then [] else [note_low_entropy])
    ++ (if repeating_or_sequences_penalty pw =? 0 then [] else [note_patterns]).
Proof.
  unfold run_heuristics. rewrite variety_count_eq.
  pose proof (bits_ge_mono pw 40 80 ltac:(lia)) as M80.
  pose proof (bits_ge_mono pw 40 60 ltac:(lia)) as M60.
  destruct (bits_ge pw 80) eqn:E80; [rewrite (M80 eq_refl) |
  destruct (bits_ge pw 60) eqn:E60; [rewrite (M60 eq_refl) |
  destruct (bits_ge pw 40) eqn:E40]];
    (destruct (Z.leb_spec 16 (Z.of_nat (List.length pw))); [|
     destruct (Z.leb_spec 12 (Z.of_nat (List.length pw))); [|
     destruct (Z.leb_spec 10 (Z.of_nat (List.length pw))); [|
     destruct (Z.leb_spec 8 (Z.of_nat (List.length pw)))]]]);
    (destruct (Z.ltb_spec (Z.of_nat (List.length pw)) 8); try lia);
    destruct (spec_class_count pw <=? 1);
    destruct (repeating_or_sequences_penalty pw =? 0); reflexivity.
Qed.

Lemma full_path_reasons_eq (pw : pystr) :
  pw <> [] -> ~ In (lower pw) COMMON ->
  reasons (score_password pw) =
    (if Z.of_nat (List.length pw) <? 8 then [note_too_short] else [])
    ++ (if spec_class_count pw <=? 1 then [note_mix] else [])
    ++ (if bits_ge pw 40 then [] else [note_low_entropy])
    ++ (if repeating_or_sequences_penalty pw =? 0 then [] else [note_patterns]).
Proof.
  intros Hne Hbl.
  rewrite score_password_full by (assumption || now apply not_in_set).
  cbn [reasons]. apply run_heuristics_reasons.
Qed.

(** X1: on the full path the notes are the four fixed messages, each present
    exactly under its own condition (shorter than 8; at most one class;
    entropy below 40 bits; a positive penalty) and in this order. *)
Theorem full_path_reasons (pw : pystr) :
  pw <> [] -> ~ In (lower pw) COMMON ->
  reasons (score_password pw) =
    (if Z.of_nat (List.length pw) <? 8 then [note_too_short] else [])
    ++ (if spec_class_count pw <=? 1 then [note_mix] else [])
    ++ (if bits_ge pw 40 then [] else [note_low_entropy])
    ++ (if repeating_or_sequences_penalty pw =? 0 then [] else [note_patterns])
  /\ (bits_ge pw 40 = false <-> (shannon_entropy_bits pw < 40)%R).
Proof.
  intros Hne Hbl. split; [now apply full_path_reasons_eq | apply bits_lt_spec; lia].
Qed.

Lemma class_count_range (pw : pystr) : 0 <= spec_class_count pw <= 4.
Proof.
  unfold spec_class_count. cbn [filter].
  destruct (existsb is_lower pw), (existsb is_upper pw),
    (existsb is_digit pw), (existsb is_nonword pw); cbn; lia.
Qed.

Lemma class_count_4 (pw : pystr) : spec_class_count pw = 4 -> charset_size pw = 95.
Proof.
  unfold spec_class_count, charset_size, re_search_class. cbn [filter].
  destruct (existsb is_lower pw), (existsb is_upper pw),
    (existsb is_digit pw), (existsb is_nonword pw); cbn; intros H;
    (reflexivity || discriminate).
Qed.

Lemma charset_size_le_95 (pw : pystr) : charset_size pw <= 95.
Proof.
  pose proof (charset_size_values pw) as H. cbn in H.
  repeat (destruct H as [<- | H]; [lia |]). contradiction.
Qed.

(** A charset of at least [c0] and a length of at least [n0] give at least
    the entropy of [c0] and [n0]. *)
Lemma bits_ge_from (pw : pystr) (c0 : Z) (n0 : nat) (t : Z) :
  1 <= c0 <= charset_size pw -> (n0 <= List.length pw)%nat ->
  2 ^ t <= c0 ^ Z.of_nat n0 -> bits_ge pw t = true.
Proof.
  intros Hc Hn H. unfold bits_ge. apply Z.leb_le.
  apply Z.le_trans with (1 := H).
  apply Z.le_trans with (c0 ^ Z.of_nat (List.length pw)).
  - apply Z.pow_le_mono_r; lia.
  - apply Z.pow_le_mono_l. lia.
Qed.

(** A length of at most [n0] stays below the entropy of 95 and [n0]. *)
Lemma bits_lt_from (pw : pystr) (n0 : nat) (t : Z) :
  (List.length pw <= n0)%nat -> 95 ^ Z.of_nat n0 < 2 ^ t -> bits_ge pw t = false.
Proof.
  intros Hn H. unfold bits_ge. apply Z.leb_gt.
  apply Z.le_lt_trans with (2 := H).
  pose proof (charset_size_pos pw). pose proof (charset_size_le_95 pw).
  apply Z.le_trans with (charset_size pw ^ Z.of_nat n0).
  - apply Z.pow_le_mono_r; lia.
  - apply Z.pow_le_mono_l. lia.
Qed.

(** The score of the full path, unfolded to the tiers. *)
Lemma full_path_score (pw : pystr) :
  pw <> [] -> ~ In (lower pw) COMMON ->
  score (score_password pw) =
  Z.max 0
    (spec_length_tier (Z.of_nat (List.length pw)) + spec_variety_points pw
     + (if bits_ge pw 80 then 3 else if bits_ge pw 60 then 2
        else if bits_ge pw 40 then 1 else 0)
     - repeating_or_sequences_penalty pw).
Proof.
  intros Hne Hbl.
  rewrite score_password_full by (assumption || now apply not_in_set).
  cbn [score]. rewrite run_heuristics_score, spec_entropy_tier_eq.
  pose proof (spec_tiers_bounds pw) as [H1 [H2 H3]].
  rewrite spec_entropy_tier_eq in H3.
  pose proof (penalty_nonneg pw). lia.
Qed.

Lemma score_10_iff (pw : pystr) :
  score (score_password pw) = 10 <->
  ~ In (lower pw) COMMON /\ 16 <= Z.of_nat (List.length pw)
  /\ spec_class_count pw = 4 /\ repeating_or_sequences_penalty pw = 0.
Proof.
  destruct pw as [| a pw'] eqn:Epw.
  { cbn. split; [discriminate | intros [_ [H _]]; cbn in H; lia]. }
  rewrite <- Epw. assert (Hne : pw <> []) by (subst pw; discriminate).
  clear Epw.
  destruct (in_set (lower pw) COMMON) eqn:Hbl.
  { destruct pw as [| b pw'']; [contradiction |].
    unfold score_password. rewrite Hbl. cbn [score].
    split; [discriminate | intros [H _]; exfalso; apply H, in_set_In, Hbl]. }
  assert (Hnb : ~ In (lower pw) COMMON).
  { intros C. apply in_set_In in C. congruence. }
  rewrite (full_path_score pw Hne Hnb).
  pose proof (penalty_nonneg pw) as Hp.
  pose proof (class_count_range pw) as Hc.
  unfold spec_length_tier, spec_variety_points.
  split.
  - intros H. split; [exact Hnb |].
    destruct (Z.leb_spec 16 (Z.of_nat (List.length pw)));
      [| destruct (12 <=? Z.of_nat (List.length pw)),
           (10 <=? Z.of_nat (List.length pw)), (8 <=? Z.of_nat (List.length pw)),
           (bits_ge pw 80), (bits_ge pw 60), (bits_ge pw 40); lia].
    destruct (bits_ge pw 80), (bits_ge pw 60), (bits_ge pw 40); lia.
  - intros [_ [HL [H4 H0]]].
    assert (E : bits_ge pw 80 = true).
    { apply (bits_ge_from pw 95 16 80).
      - rewrite (class_count_4 pw H4). lia.
      - lia.
      - vm_compute. discriminate. }
    rewrite E, H4, H0.
    destruct (Z.leb_spec 16 (Z.of_nat (List.length pw))); lia.
Qed.

(** X2: the score is 10 exactly for a password outside the blacklist with at
    least 16 characters, all four classes and no pattern penalty. *)
Theorem perfect_score_iff (pw : pystr) :
  score (score_password pw) = 10 <->
  ~ In (lower pw) COMMON /\ 16 <= Z.of_nat (List.length pw)
  /\ spec_class_count pw = 4 /\ repeating_or_sequences_penalty pw = 0.
Proof. exact (score_10_iff pw). Qed.

(** X3: a verdict with score 10 carries no notes. *)
Theorem perfect_score_no_reasons (pw : pystr) :
  score (score_password pw) = 10 -> reasons (score_password pw) = [].
Proof.
  intros H. pose proof H as H'. apply score_10_iff in H'.
  destruct H' as [Hnb [HL [H4 H0]]].
  assert (Hne : pw <> []) by (intros ->; cbn in HL; lia).
  rewrite (full_path_reasons_eq pw Hne Hnb).
  assert (E : bits_ge pw 40 = true).
  { apply (bits_ge_from pw 95 16 40).
    - rewrite (class_count_4 pw H4). lia.
    - lia.
    - vm_compute. discriminate. }
  rewrite E, H4, H0.
  destruct (Z.ltb_spec (Z.of_nat (List.length pw)) 8); [lia | reflexivity].
Qed.

(** The three paths of [score_password]. *)
Lemma verdict_cases (pw : pystr) :
  (pw = []
   /\ score_password pw =
      mkVerdict 0 "Empty" ["No password provided."%string] None None)
  \/ (pw <> [] /\ In (lower pw) COMMON
      /\ score_password pw =
         mkVerdict 1 "Very Weak" ["Common password (easily guessed)."%string] None None)
  \/ (pw <> [] /\ ~ In (lower pw) COMMON
      /\ score_password pw =
         mkVerdict (Z.max 0 (Z.min 10 (fst (run_heuristics pw))))
           (spec_label (Z.max 0 (Z.min 10 (fst (run_heuristics pw)))))
           (snd (run_heuristics pw))
           (Some (round_bits pw))
           (Some (Z.of_nat (List.length pw)))).
Proof.
  destruct pw as [| a pw'] eqn:Epw; [left; split; reflexivity |].
  rewrite <- Epw. assert (Hne : pw <> []) by (subst pw; discriminate). clear Epw.
  right. destruct (in_set (lower pw) COMMON) eqn:Hbl.
  - left. split; [exact Hne |]. split; [now apply in_set_In |].
    destruct pw as [| b pw'']; [contradiction |].
    unfold score_password. rewrite Hbl. reflexivity.
  - right. split; [exact Hne |].
    split; [intros C; apply in_set_In in C; congruence |].
    now apply score_password_full.
Qed.

Lemma spec_label_le_4 (s : Z) :
  s <= 4 -> In (spec_label s) ["Very Weak"; "Weak"]%string.
Proof.
  intros H. unfold spec_label.
  destruct (Z.leb_spec 9 s); [lia |]. destruct (Z.leb_spec 7 s); [lia |].
  destruct (Z.leb_spec 5 s); [lia |].
  destruct (3 <=? s); cbn; tauto.
Qed.

(** X4: a password of fewer than 8 characters never scores above 4, so its
    label is never better than "Weak". *)
Theorem short_password_cap (pw : pystr) :
  Z.of_nat (List.length pw) < 8 ->
  score (score_password pw) <= 4
  /\ In (label (score_password pw)) ["Empty"; "Very Weak"; "Weak"]%string.
Proof.
  intros HL.
  destruct (verdict_cases pw) as [[_ ->] | [[_ [_ ->]] | [Hne [Hnb E]]]];
    [cbn; split; [lia | tauto] | cbn; split; [lia | tauto] |].
  assert (Hs : Z.max 0 (Z.min 10 (fst (run_heuristics pw))) <= 4).
  { rewrite run_heuristics_score, spec_entropy_tier_eq.
    pose proof (spec_tiers_bounds pw) as [_ [Hv _]].
    pose proof (penalty_nonneg pw) as Hp.
    assert (E60 : bits_ge pw 60 = false)
      by (apply (bits_lt_from pw 7 60); [lia | vm_compute; reflexivity]).
    assert (E80 : bits_ge pw 80 = false).
    { destruct (bits_ge pw 80) eqn:E80; [| reflexivity].
      rewrite (bits_ge_mono pw 60 80 ltac:(lia) E80) in E60. discriminate. }
    rewrite E60, E80. unfold spec_length_tier.
    destruct (Z.leb_spec 16 (Z.of_nat (List.length pw))); [lia |].
    destruct (Z.leb_spec 12 (Z.of_nat (List.length pw))); [lia |].
    destruct (Z.leb_spec 10 (Z.of_nat (List.length pw))); [lia |].
    destruct (Z.leb_spec 8 (Z.of_nat (List.length pw))); [lia |].
    destruct (bits_ge pw 40); lia. }
  rewrite E. cbn [score label]. split; [exact Hs |].
  right. now apply spec_label_le_4.
Qed.

(** X5: a password with at most one character class present never scores
    above 7, so it is never "Excellent". *)
Theorem single_class_cap (pw : pystr) :
  spec_class_count pw <= 1 ->
  score (score_password pw) <= 7
  /\ label (score_password pw) <> "Excellent"%string.
Proof.
  intros Hc.
  destruct (verdict_cases pw) as [[_ ->] | [[_ [_ ->]] | [Hne [Hnb E]]]];
    [cbn; split; [lia | discriminate] | cbn; split; [lia | discriminate] |].
  assert (Hs : Z.max 0 (Z.min 10 (fst (run_heuristics pw))) <= 7).
  { rewrite run_heuristics_score.
    pose proof (spec_tiers_bounds pw) as [Hl [_ He]].
    pose proof (penalty_nonneg pw) as Hp.
    unfold spec_variety_points. lia. }
  rewrite E. cbn [score label]. split; [exact Hs |].
  unfold spec_label.
  destruct (Z.leb_spec 9 (Z.max 0 (Z.min 10 (fst (run_heuristics pw))))); [lia |].
  destruct (7 <=? Z.max 0 (Z.min 10 (fst (run_heuristics pw)))),
    (5 <=? Z.max 0 (Z.min 10 (fst (run_heuristics pw)))),
    (3 <=? Z.max 0 (Z.min 10 (fst (run_heuristics pw)))); discriminate.
Qed.

(** X6: a password of at most 6 characters that takes the full path has less
    than 40 bits of entropy: it carries the low-entropy note and scores at
    most 3. *)
Theorem tiny_password_low_entropy (pw : pystr) :
  pw <> [] -> ~ In (lower pw) COMMON -> Z.of_nat (List.length pw) <= 6 ->
  (shannon_entropy_bits pw < 40)%R
  /\ In note_low_entropy (reasons (score_password pw))
  /\ In note_too_short (reasons (score_password pw))
  /\ score (score_password pw) <= 3.
Proof.
  intros Hne Hnb HL.
  assert (E40 : bits_ge pw 40 = false)
    by (apply (bits_lt_from pw 6 40); [lia | vm_compute; reflexivity]).
  assert (E60 : bits_ge pw 60 = false).
  { destruct (bits_ge pw 60) eqn:E60; [| reflexivity].
    rewrite (bits_ge_mono pw 40 60 ltac:(lia) E60) in E40. discriminate. }
  assert (E80 : bits_ge pw 80 = false).
  { destruct (bits_ge pw 80) eqn:E80; [| reflexivity].
    rewrite (bits_ge_mono pw 40 80 ltac:(lia) E80) in E40. discriminate. }
  split; [apply bits_lt_spec; [lia | exact E40] |].
  rewrite (full_path_reasons_eq pw Hne Hnb), (full_path_score pw Hne Hnb).
  rewrite E40, E60, E80.
  destruct (Z.ltb_spec (Z.of_nat (List.length pw)) 8) as [_ | C]; [| lia].
  split; [| split].
  - apply in_or_app. right. apply in_or_app. right. left. reflexivity.
  - left. reflexivity.
  - pose proof (spec_tiers_bounds pw) as [_ [Hv _]].
    pose proof (penalty_nonneg pw) as Hp.
    unfold spec_length_tier.
    destruct (Z.leb_spec 16 (Z.of_nat (List.length pw))); [lia |].
    destruct (Z.leb_spec 12 (Z.of_nat (List.length pw))); [lia |].
    destruct (Z.leb_spec 10 (Z.of_nat (List.length pw))); [lia |].
    destruct (Z.leb_spec 8 (Z.of_nat (List.length pw))); lia.
Qed.

(** X7: the keys [entropy_bits] and [length] are present together, exactly
    when the password is neither empty nor blacklisted, and [length] is then
    the number of characters. *)
Theorem optional_keys_iff (pw : pystr) :
  (entropy_bits (score_password pw) <> None <-> pw <> [] /\ ~ In (lower pw) COMMON)
  /\ (length_ (score_password pw) <> None <-> pw <> [] /\ ~ In (lower pw) COMMON)
  /\ (pw <> [] -> ~ In (lower pw) COMMON ->
      length_ (score_password pw) = Some (Z.of_nat (List.length pw))).
Proof.
  destruct (verdict_cases pw) as [[E ->] | [[Hne [Hbl ->]] | [Hne [Hnb ->]]]];
    cbn [entropy_bits length_].
  - repeat split; try (intros C; contradiction); try (intros [C _]; contradiction).
  - repeat split; try (intros C; contradiction); try (intros [_ C]; contradiction).
  - repeat split; try assumption; try discriminate.
Qed.

(** X8: the label is "Empty" exactly for the empty string; every other
    password gets one of the five labels of the mapping. *)
Theorem empty_label_iff (pw : pystr) :
  (label (score_password pw) = "Empty"%string <-> pw = [])
  /\ (pw <> [] -> In (label (score_password pw)) full_path_labels).
Proof.
  assert (HL : forall s, In (spec_label s) full_path_labels).
  { intros s. unfold spec_label, full_path_labels.
    destruct (9 <=? s), (7 <=? s), (5 <=? s), (3 <=? s); cbn; tauto. }
  assert (HE : forall s, spec_label s <> "Empty"%string).
  { intros s. unfold spec_label.
    destruct (9 <=? s), (7 <=? s), (5 <=? s), (3 <=? s); discriminate. }
  destruct (verdict_cases pw) as [[E ->] | [[Hne [Hbl ->]] | [Hne [Hnb ->]]]];
    cbn [label].
  - split; [split; [intros _; exact E | reflexivity] | intros C; contradiction].
  - split; [split; [discriminate | intros C; contradiction] |].
    intros _. cbn. tauto.
  - split; [split; [intros C; exfalso; exact (HE _ C) | intros C; contradiction] |].
    intros _. apply HL.
Qed.

(** ** Further properties of the entropy *)

Lemma unclassed_charset_size (pw : pystr) :
  forallb unclassed pw = true -> charset_size pw = 1 /\ spec_class_count pw = 0.
Proof.
  rewrite forallb_unclassed.
  unfold charset_size, spec_class_count, re_search_class. cbn [filter].
  destruct (existsb is_lower pw), (existsb is_upper pw),
    (existsb is_digit pw), (existsb is_nonword pw); cbn;
    (discriminate || (intros _; split; reflexivity)).
Qed.

Lemma classed_charset_size (pw : pystr) :
  forallb unclassed pw = false -> 10 <= charset_size pw.
Proof.
  rewrite forallb_unclassed. unfold charset_size, re_search_class.
  destruct (existsb is_lower pw), (existsb is_upper pw),
    (existsb is_digit pw), (existsb is_nonword pw); cbn;
    (discriminate || (intros _; lia)).
Qed.

(** X9: a password made only of characters outside the four classes
    (underscores, letters beyond ASCII) has entropy 0 whatever its length; on
    the full path the verdict reports 0.0 bits, carries the low-entropy note
    and scores at most 4. *)
Theorem unclassed_password_entropy (pw : pystr) :
  forallb unclassed pw = true ->
  shannon_entropy_bits pw = 0%R
  /\ (pw <> [] -> ~ In (lower pw) COMMON ->
      entropy_bits (score_password pw) = Some (Tenths 0)
      /\ In note_low_entropy (reasons (score_password pw))
      /\ score (score_password pw) <= 4).
Proof.
  intros H. destruct (unclassed_charset_size pw H) as [Hc Hn].
  split.
  { unfold shannon_entropy_bits. rewrite Hc, log2_1. apply Rmult_0_r. }
  intros Hne Hnb.
  assert (E : forall t, 0 < t -> bits_ge pw t = false).
  { intros t Ht. unfold bits_ge. rewrite Hc, Z.pow_1_l by lia.
    apply Z.leb_gt. apply Z.lt_le_trans with (2 ^ 1); [reflexivity |].
    apply Z.pow_le_mono_r; lia. }
  rewrite (full_path_reasons_eq pw Hne Hnb), (full_path_score pw Hne Hnb).
  rewrite !E by lia.
  rewrite score_password_full by (assumption || now apply not_in_set).
  cbn [entropy_bits]. unfold round_bits. rewrite Hc, Z.pow_1_l by lia.
  split; [reflexivity |]. split.
  - apply in_or_app. right. apply in_or_app. right. left. reflexivity.
  - pose proof (spec_tiers_bounds pw) as [Hl _].
    pose proof (penalty_nonneg pw) as Hp.
    unfold spec_variety_points. rewrite Hn. lia.
Qed.

(** X10: a password of at least 25 characters with some class present has at
    least 80 bits of entropy, the top tier. *)
Theorem long_password_top_tier (pw : pystr) :
  (25 <= List.length pw)%nat -> forallb unclassed pw = false ->
  (80 <= shannon_entropy_bits pw)%R /\ spec_entropy_tier pw = 3.
Proof.
  intros HL Hc.
  assert (E : bits_ge pw 80 = true).
  { apply (bits_ge_from pw 10 25 80).
    - pose proof (classed_charset_size pw Hc). lia.
    - exact HL.
    - vm_compute. discriminate. }
  split; [apply bits_ge_spec; [lia | exact E] |].
  rewrite spec_entropy_tier_eq, E. reflexivity.
Qed.

Lemma log2_mono (x y : R) : (1 <= x)%R -> (x <= y)%R -> (0 <= log2 x <= log2 y)%R.
Proof.
  intros Hx Hxy. unfold log2. pose proof ln2_pos as H2.
  assert (H0 : (0 <= ln x)%R).
  { rewrite <- ln_1. apply (proj1 (ln_le_iff 1 x ltac:(lra) ltac:(lra))). exact Hx. }
  assert (H1 : (ln x <= ln y)%R)
    by (apply (proj1 (ln_le_iff x y ltac:(lra) ltac:(lra))); exact Hxy).
  split.
  - apply Rmult_le_pos; [exact H0 | left; now apply Rinv_0_lt_compat].
  - apply Rmult_le_compat_r; [left; now apply Rinv_0_lt_compat | exact H1].
Qed.

Lemma charset_size_mono (pre pw post : pystr) :
  charset_size pw <= charset_size (pre ++ pw ++ post).
Proof.
  unfold charset_size, re_search_class. rewrite !existsb_app.
  destruct (existsb is_lower pw), (existsb is_upper pw),
    (existsb is_digit pw), (existsb is_nonword pw);
    rewrite ?orb_true_r, ?orb_true_l, ?orb_false_r, ?orb_false_l;
    destruct (existsb is_lower pre), (existsb is_upper pre),
      (existsb is_digit pre), (existsb is_nonword pre); cbn [orb];
    destruct (existsb is_lower post), (existsb is_upper post),
      (existsb is_digit post), (existsb is_nonword post); cbn; lia.
Qed.

(** X11: adding characters in front of or behind a password never lowers
    its charset size nor its entropy. *)
Theorem entropy_monotone (pre pw post : pystr) :
  charset_size pw <= charset_size (pre ++ pw ++ post)
  /\ (shannon_entropy_bits pw <= shannon_entropy_bits (pre ++ pw ++ post))%R.
Proof.
  pose proof (charset_size_mono pre pw post) as Hc.
  split; [exact Hc |].
  unfold shannon_entropy_bits.
  pose proof (charset_size_pos pw) as H1.
  destruct (log2_mono (IZR (charset_size pw)) (IZR (charset_size (pre ++ pw ++ post))))
    as [G0 G1]; [apply IZR_le; lia | apply IZR_le; exact Hc |].
  apply Rmult_le_compat; [apply pos_INR | exact G0 | | exact G1].
  apply le_INR. rewrite !length_app. lia.
Qed.

(** X13: the entropy tier does not depend on rounding: any number within
    0.05 of the entropy, the double of the code among them, falls in the same
    tier as the entropy itself. *)
Theorem tier_insensitive_to_rounding (pw : pystr) (b : R) :
  (Rabs (b - shannon_entropy_bits pw) < 1 / 20)%R ->
  tier_of_bits b = spec_entropy_tier pw.
Proof.
  intros Hb. apply Rabs_def2 in Hb. destruct Hb as [Hb1 Hb2].
  unfold tier_of_bits, spec_entropy_tier.
  pose proof (entropy_threshold_margin pw 80 ltac:(cbn; tauto)) as M80.
  pose proof (entropy_threshold_margin pw 60 ltac:(cbn; tauto)) as M60.
  pose proof (entropy_threshold_margin pw 40 ltac:(cbn; tauto)) as M40.
  destruct (Rle_dec 80 b), (Rle_dec 80 (shannon_entropy_bits pw));
    try reflexivity; try (exfalso; lra);
    destruct (Rle_dec 60 b), (Rle_dec 60 (shannon_entropy_bits pw));
    try reflexivity; try (exfalso; lra);
    destruct (Rle_dec 40 b), (Rle_dec 40 (shannon_entropy_bits pw));
    try reflexivity; exfalso; lra.
Qed.

(** ** The blacklist on ASCII passwords *)

Lemma lower_from_ascii (whole : pystr) (i : nat) (rest : pystr) :
  forallb is_ascii rest = true -> lower_from whole i rest = map ascii_lower rest.
Proof.
  revert i. induction rest as [| c rest IH]; intros i H; [reflexivity |].
  cbn [forallb] in H. apply andb_true_iff in H. destruct H as [Hc Hr].
  cbn [lower_from map]. rewrite (IH (S i) Hr).
  unfold lower_char, ascii_lower. unfold is_ascii in Hc. rewrite Hc.
  destruct (is_upper c); reflexivity.
Qed.

Lemma empty_not_common : ~ In [] COMMON.
Proof.
  intros H. apply in_set_In in H. vm_compute in H. discriminate.
Qed.

Lemma common_verdict (pw : pystr) :
  In (lower pw) COMMON ->
  lower pw <> [] -> pw <> [] ->
  score_password pw =
    mkVerdict 1 "Very Weak" ["Common password (easily guessed)."%string] None None.
Proof.
  intros Hbl _ Hne.
  destruct (verdict_cases pw) as [[E _] | [[_ [_ E]] | [_ [C _]]]];
    [contradiction | exact E | contradiction].
Qed.

Lemma ascii_blacklisted (pw : pystr) :
  forallb is_ascii pw = true -> In (map ascii_lower pw) COMMON ->
  score_password pw =
    mkVerdict 1 "Very Weak" ["Common password (easily guessed)."%string] None None.
Proof.
  intros Ha Hin.
  assert (El : lower pw = map ascii_lower pw) by (apply lower_from_ascii; exact Ha).
  assert (Hne : pw <> []).
  { intros ->. apply empty_not_common. exact Hin. }
  apply common_verdict; [rewrite El; exact Hin | | exact Hne].
  rewrite El. destruct pw; [contradiction | discriminate].
Qed.

(** X14: on a password of ASCII characters [lower] maps A-Z to a-z and
    leaves the rest, so the blacklist test ignores the case: whenever the
    lowercased password is an entry, the verdict is the blacklist one. *)
Theorem ascii_blacklist_ignores_case (pw : pystr) :
  forallb is_ascii pw = true ->
  lower pw = map ascii_lower pw
  /\ (In (map ascii_lower pw) COMMON ->
      score_password pw =
        mkVerdict 1 "Very Weak" ["Common password (easily guessed)."%string] None None).
Proof.
  intros Ha. split; [apply lower_from_ascii; exact Ha | now apply ascii_blacklisted].
Qed.

Lemma common_normal_form :
  forallb (fun e => forallb is_ascii e && pystr_eqb (map ascii_lower e) e) COMMON = true.
Proof. vm_compute. reflexivity. Qed.

(** X15: every entry of the blacklist is its own lowercasing, so each entry
    can match: given as a password, it gets the blacklist verdict. *)
Theorem blacklist_entries_rejected (e : pystr) :
  In e COMMON ->
  lower e = e
  /\ score_password e =
       mkVerdict 1 "Very Weak" ["Common password (easily guessed)."%string] None None.
Proof.
  intros H. pose proof common_normal_form as N.
  rewrite forallb_forall in N. specialize (N e H).
  apply andb_true_iff in N. destruct N as [Ha He].
  unfold pystr_eqb in He.
  destruct (list_eq_dec N.eq_dec (map ascii_lower e) e) as [Eq | ]; [| discriminate].
  split.
  - rewrite (lower_from_ascii e 0 e Ha : lower e = map ascii_lower e). exact Eq.
  - apply ascii_blacklisted; [exact Ha | rewrite Eq; exact H].
Qed.

(** ** What the pattern detectors match *)

Lemma startswith_spec (sub s : pystr) :
  startswith sub s = true <-> exists post, s = sub ++ post.
Proof.
  revert s. induction sub as [| a sub IH]; intros s.
  - cbn. split; [intros _; exists s; reflexivity | reflexivity].
  - destruct s as [| b s]; cbn [startswith].
    + split; [discriminate | intros [post E]; discriminate].
    + rewrite andb_true_iff, N.eqb_eq, IH. split.
      * intros [-> [post ->]]. exists post. reflexivity.
      * intros [post E]. injection E as -> ->. split; [reflexivity | now exists post].
Qed.

Lemma str_in_spec (sub s : pystr) : str_in sub s = true <-> contains sub s.
Proof.
  unfold contains. induction s as [| b s IH].
  - cbn [str_in]. rewrite orb_false_r, startswith_spec. split.
    + intros [post E]. exists [], post. exact E.
    + intros [pre [post E]]. destruct pre; [now exists post | discriminate].
  - cbn [str_in]. rewrite orb_true_iff, startswith_spec, IH. split.
    + intros [[post E] | [pre [post E]]].
      * exists [], post. exact E.
      * exists (b :: pre), post. rewrite E. reflexivity.
    + intros [pre [post E]]. destruct pre as [| x pre].
      * left. now exists post.
      * right. injection E as _ E. now exists pre, post.
Qed.

Lemma re_search_alt_spec (alts : list pystr) (s : pystr) :
  re_search_alt alts s = true <-> exists alt, In alt alts /\ contains alt s.
Proof.
  unfold re_search_alt. rewrite existsb_exists.
  split; intros [alt [Hi H]]; exists alt; (split; [exact Hi | now apply str_in_spec]).
Qed.

Lemma row_hit_spec (row low : pystr) :
  row_hit row low = true <-> exists w, In w (windows row) /\ contains w low.
Proof.
  unfold row_hit, windows. rewrite existsb_exists. split.
  - intros [i [Hi H]]. exists (slice row i (i + 4)).
    split; [| now apply str_in_spec].
    exact (in_map (fun j => slice row j (j + 4)) _ i Hi).
  - intros [w [Hw H]]. apply in_map_iff in Hw. destruct Hw as [i [<- Hi]].
    exists i. split; [exact Hi | now apply str_in_spec].
Qed.

Lemma re_search_repeat_cons (a : N) (pw : pystr) :
  re_search_repeat pw = true -> re_search_repeat (a :: pw) = true.
Proof.
  destruct pw as [| b [| c r]]; try discriminate.
  intros H. change (re_search_repeat (a :: b :: c :: r))
    with ((negb (a =? 10)%N && (a =? b)%N && (a =? c)%N)
          || re_search_repeat (b :: c :: r)).
  rewrite H. apply orb_true_r.
Qed.

Lemma re_search_repeat_spec (pw : pystr) :
  re_search_repeat pw = true <-> has_triple pw.
Proof.
  unfold has_triple. split.
  - induction pw as [| a pw IH]; [discriminate |].
    destruct pw as [| b [| c r]]; try discriminate.
    change (re_search_repeat (a :: b :: c :: r))
      with ((negb (a =? 10)%N && (a =? b)%N && (a =? c)%N)
            || re_search_repeat (b :: c :: r)).
    intros H. apply orb_true_iff in H. destruct H as [H | H].
    + apply andb_true_iff in H. destruct H as [H Hc].
      apply andb_true_iff in H. destruct H as [Hn Hb].
      apply N.eqb_eq in Hb, Hc. subst b c.
      exists [], a, r. split; [reflexivity |].
      intros ->. discriminate.
    + destruct (IH H) as [pre [x [post [E Hx]]]].
      exists (a :: pre), x, post. split; [cbn; rewrite E; reflexivity | exact Hx].
  - intros [pre [c [post [-> Hc]]]]. induction pre as [| a pre IH].
    + cbn. rewrite !N.eqb_refl. apply N.eqb_neq in Hc. rewrite Hc. reflexivity.
    + cbn [app]. apply re_search_repeat_cons. exact IH.
Qed.

(** X16: the repeat detector fires exactly when some character other than
    the newline stands three times in a row. *)
Theorem repeat_detector_spec (pw : pystr) :
  re_search_repeat pw = true <-> has_triple pw.
Proof. exact (re_search_repeat_spec pw). Qed.

(** X17: the numeric-run detector fires exactly when the password contains
    one of the seven runs, the alphabetic-run detector when the lowercased
    password contains one of its seven runs, and the keyboard detector counts
    a row exactly when the lowercased password contains four consecutive keys
    of that row. *)
Theorem substring_detectors_spec (pw row : pystr) :
  (re_search_alt numeric_runs pw = true <->
   exists run, In run numeric_runs /\ contains run pw)
  /\ (re_search_alt alpha_runs (lower pw) = true <->
      exists run, In run alpha_runs /\ contains run (lower pw))
  /\ (row_hit row (lower pw) = true <->
      exists w, In w (windows row) /\ contains w (lower pw)).
Proof.
  split; [apply re_search_alt_spec | split; [apply re_search_alt_spec | apply row_hit_spec]].
Qed.

(** X18: no penalty is taken exactly when the password has no triple
    repeat and no numeric run, and its lowercasing has no alphabetic run and
    no four consecutive keys of a keyboard row. *)
Theorem penalty_zero_iff (pw : pystr) :
  repeating_or_sequences_penalty pw = 0 <->
  ~ has_triple pw
  /\ (forall run, In run numeric_runs -> ~ contains run pw)
  /\ (forall run, In run alpha_runs -> ~ contains run (lower pw))
  /\ (forall row w, In row kb_rows -> In w (windows row) -> ~ contains w (lower pw)).
Proof.
  rewrite penalty_as_sum.
  pose proof (re_search_repeat_spec pw) as H1.
  pose proof (re_search_alt_spec numeric_runs pw) as H2.
  pose proof (re_search_alt_spec alpha_runs (lower pw)) as H3.
  pose proof (row_hit_spec (str "qwertyuiop") (lower pw)) as H4.
  pose proof (row_hit_spec (str "asdfghjkl") (lower pw)) as H5.
  pose proof (row_hit_spec (str "zxcvbnm") (lower pw)) as H6.
  split.
  - intros H.
    assert (Z0 : forall b, Z.b2z b <= 0 -> b = false)
      by (intros [|]; cbn; [lia | reflexivity]).
    pose proof (b2z_bounds (re_search_repeat pw)) as B1.
    pose proof (b2z_bounds (re_search_alt numeric_runs pw)) as B2.
    pose proof (b2z_bounds (re_search_alt alpha_runs (lower pw))) as B3.
    pose proof (b2z_bounds (row_hit (str "qwertyuiop") (lower pw))) as B4.
    pose proof (b2z_bounds (row_hit (str "asdfghjkl") (lower pw))) as B5.
    pose proof (b2z_bounds (row_hit (str "zxcvbnm") (lower pw))) as B6.
    rewrite (Z0 (re_search_repeat pw)) in H1 by lia.
    rewrite (Z0 (re_search_alt numeric_runs pw)) in H2 by lia.
    rewrite (Z0 (re_search_alt alpha_runs (lower pw))) in H3 by lia.
    rewrite (Z0 (row_hit (str "qwertyuiop") (lower pw))) in H4 by lia.
    rewrite (Z0 (row_hit (str "asdfghjkl") (lower pw))) in H5 by lia.
    rewrite (Z0 (row_hit (str "zxcvbnm") (lower pw))) in H6 by lia.
    split; [intros C; apply H1 in C; discriminate |].
    split; [intros run Hr C; assert (X : false = true)
              by (apply H2; now exists run); discriminate |].
    split; [intros run Hr C; assert (X : false = true)
              by (apply H3; now exists run); discriminate |].
    intros row w Hrow Hw C.
    change kb_rows with [str "qwertyuiop"; str "asdfghjkl"; str "zxcvbnm"] in Hrow.
    destruct Hrow as [<- | [<- | [<- | []]]].
    + assert (X : false = true) by (apply H4; now exists w). discriminate.
    + assert (X : false = true) by (apply H5; now exists w). discriminate.
    + assert (X : false = true) by (apply H6; now exists w). discriminate.
  - intros [N1 [N2 [N3 N4]]].
    assert (E1 : re_search_repeat pw = false).
    { destruct (re_search_repeat pw); [exfalso; apply N1, H1; reflexivity | reflexivity]. }
    assert (E2 : re_search_alt numeric_runs pw = false).
    { destruct (re_search_alt numeric_runs pw); [| reflexivity].
      destruct (proj1 H2 eq_refl) as [run [Hr C]]. exfalso. exact (N2 run Hr C). }
    assert (E3 : re_search_alt alpha_runs (lower pw) = false).
    { destruct (re_search_alt alpha_runs (lower pw)); [| reflexivity].
      destruct (proj1 H3 eq_refl) as [run [Hr C]]. exfalso. exact (N3 run Hr C). }
    assert (E4 : row_hit (str "qwertyuiop") (lower pw) = false).
    { destruct (row_hit (str "qwertyuiop") (lower pw)); [| reflexivity].
      destruct (proj1 H4 eq_refl) as [w [Hw C]]. exfalso.
      apply (N4 (str "qwertyuiop") w); [left; reflexivity | exact Hw | exact C]. }
    assert (E5 : row_hit (str "asdfghjkl") (lower pw) = false).
    { destruct (row_hit (str "asdfghjkl") (lower pw)); [| reflexivity].
      destruct (proj1 H5 eq_refl) as [w [Hw C]]. exfalso.
      apply (N4 (str "asdfghjkl") w); [right; left; reflexivity | exact Hw | exact C]. }
    assert (E6 : row_hit (str "zxcvbnm") (lower pw) = false).
    { destruct (row_hit (str "zxcvbnm") (lower pw)); [| reflexivity].
      destruct (proj1 H6 eq_refl) as [w [Hw C]]. exfalso.
      apply (N4 (str "zxcvbnm") w); [right; right; left; reflexivity | exact Hw | exact C]. }
    rewrite E1, E2, E3, E4, E5, E6. reflexivity.
Qed.

(** X19: the runs qwer, asdf and zxcv are counted twice, once by the
    alphabetic-run detector and once by the keyboard row they belong to: a
    password whose lowercasing contains one of them has a penalty of at
    least 2. *)
Theorem keyboard_runs_count_twice (pw run : pystr) :
  In run [str "qwer"; str "asdf"; str "zxcv"] -> contains run (lower pw) ->
  2 <= repeating_or_sequences_penalty pw.
Proof.
  intros Hr Hc. rewrite penalty_as_sum.
  assert (Ha : re_search_alt alpha_runs (lower pw) = true).
  { apply re_search_alt_spec. exists run. split; [| exact Hc].
    destruct Hr as [<- | [<- | [<- | []]]]; vm_compute; tauto. }
  rewrite Ha.
  pose proof (b2z_bounds (re_search_repeat pw)).
  pose proof (b2z_bounds (re_search_alt numeric_runs pw)).
  pose proof (b2z_bounds (row_hit (str "qwertyuiop") (lower pw))).
  pose proof (b2z_bounds (row_hit (str "asdfghjkl") (lower pw))).
  pose proof (b2z_bounds (row_hit (str "zxcvbnm") (lower pw))).
  destruct Hr as [<- | [<- | [<- | []]]].
  - assert (E : row_hit (str "qwertyuiop") (lower pw) = true).
    { apply row_hit_spec. exists (str "qwer"). split; [vm_compute; tauto | exact Hc]. }
    rewrite E in *. cbn [Z.b2z] in *. lia.
  - assert (E : row_hit (str "asdfghjkl") (lower pw) = true).
    { apply row_hit_spec. exists (str "asdf"). split; [vm_compute; tauto | exact Hc]. }
    rewrite E in *. cbn [Z.b2z] in *. lia.
  - assert (E : row_hit (str "zxcvbnm") (lower pw) = true).
    { apply row_hit_spec. exists (str "zxcv"). split; [vm_compute; tauto | exact Hc]. }
    rewrite E in *. cbn [Z.b2z] in *. lia.
Qed.

(** X20: a verdict has no notes exactly when the password takes the full
    path with at least 8 characters, at least two classes, at least 40 bits
    of entropy and no penalty; its score is then at least 3. *)
Theorem no_notes_iff (pw : pystr) :
  (reasons (score_password pw) = [] <->
   pw <> [] /\ ~ In (lower pw) COMMON /\ 8 <= Z.of_nat (List.length pw)
   /\ 2 <= spec_class_count pw /\ (40 <= shannon_entropy_bits pw)%R
   /\ repeating_or_sequences_penalty pw = 0)
  /\ (reasons (score_password pw) = [] -> 3 <= score (score_password pw)).
Proof.
  destruct (verdict_cases pw) as [[E Ev] | [[Hne [Hbl Ev]] | [Hne [Hnb _]]]].
  - rewrite Ev. cbn [reasons]. split; [| discriminate].
    split; [discriminate | intros [C _]; contradiction].
  - rewrite Ev. cbn [reasons]. split; [| discriminate].
    split; [discriminate | intros [_ [C _]]; contradiction].
  - rewrite (full_path_reasons_eq pw Hne Hnb), (full_path_score pw Hne Hnb).
    pose proof (bits_ge_spec pw 40 ltac:(lia)) as B.
    pose proof (bits_ge_mono pw 40 60 ltac:(lia)) as M60.
    pose proof (bits_ge_mono pw 40 80 ltac:(lia)) as M80.
    pose proof (class_count_range pw) as Hc.
    unfold spec_length_tier, spec_variety_points.
    destruct (Z.ltb_spec (Z.of_nat (List.length pw)) 8) as [HL | HL];
      [split; [split; [discriminate | intros [_ [_ [C _]]]; lia] | discriminate] |].
    destruct (Z.leb_spec (spec_class_count pw) 1) as [H1 | H1];
      [split; [split; [discriminate | intros [_ [_ [_ [C _]]]]; lia] | discriminate] |].
    destruct (bits_ge pw 40) eqn:E40;
      [| split; [split; [discriminate |] | discriminate];
         intros [_ [_ [_ [_ [C _]]]]]; apply B in C; discriminate].
    destruct (Z.eqb_spec (repeating_or_sequences_penalty pw) 0) as [H0 | H0];
      [| split; [split; [discriminate | intros [_ [_ [_ [_ [_ C]]]]]; contradiction]
               | discriminate]].
    cbn [app]. split.
    + split; [intros _ | reflexivity].
      repeat split; try assumption; try lia. now apply B.
    + intros _. rewrite H0.
      destruct (Z.leb_spec 16 (Z.of_nat (List.length pw))),
        (Z.leb_spec 12 (Z.of_nat (List.length pw))),
        (Z.leb_spec 10 (Z.of_nat (List.length pw))),
        (Z.leb_spec 8 (Z.of_nat (List.length pw)));
        destruct (bits_ge pw 80), (bits_ge pw 60); lia.
Qed.

(** ** [main] *)


(** ** Bounds that follow from the tiers *)

(** X22: every pattern the detectors find costs a point: the score is at
    most 10 less the penalty. *)
Theorem score_le_10_minus_penalty (pw : pystr) :
  score (score_password pw) <= 10 - repeating_or_sequences_penalty pw.
Proof.
  assert (Hp6 : repeating_or_sequences_penalty pw <= 6).
  { rewrite penalty_as_sum.
    pose proof (b2z_bounds (re_search_repeat pw)).
    pose proof (b2z_bounds (re_search_alt numeric_runs pw)).
    pose proof (b2z_bounds (re_search_alt alpha_runs (lower pw))).
    pose proof (b2z_bounds (row_hit (str "qwertyuiop") (lower pw))).
    pose proof (b2z_bounds (row_hit (str "asdfghjkl") (lower pw))).
    pose proof (b2z_bounds (row_hit (str "zxcvbnm") (lower pw))).
    lia. }
  destruct (verdict_cases pw) as [[_ ->] | [[_ [_ ->]] | [Hne [Hnb _]]]];
    [cbn [score]; lia | cbn [score]; lia |].
  rewrite (full_path_score pw Hne Hnb), <- spec_entropy_tier_eq.
  pose proof (spec_tiers_bounds pw) as [H1 [H2 H3]]. lia.
Qed.

(** X23: the charset size is one of twelve values between 1 and 95, so the
    entropy is at most [len(pw) * log2 95], less than 6.6 bits a character. *)
Theorem charset_size_range (pw : pystr) :
  In (charset_size pw) charset_values
  /\ 1 <= charset_size pw <= 95
  /\ (shannon_entropy_bits pw <= INR (List.length pw) * log2 95)%R
  /\ (log2 95 < 66 / 10)%R.
Proof.
  split; [apply charset_size_values |].
  split; [split; [apply charset_size_pos | apply charset_size_le_95] |].
  split.
  - unfold shannon_entropy_bits.
    apply Rmult_le_compat_l; [apply pos_INR |].
    apply log2_mono; apply IZR_le; [apply charset_size_pos | apply charset_size_le_95].
  - assert (H : (INR 10 * log2 (IZR 95) < IZR 66)%R).
    { apply Rnot_le_lt. intros C.
      apply (pow2_le_pow_log2 95 10 66 ltac:(lia) ltac:(lia)) in C.
      vm_compute in C. apply C. reflexivity. }
    replace (INR 10) with 10%R in H by (rewrite INR_IZR_INZ; reflexivity). lra.
Qed.

Lemma spec_label_excellent (s : Z) : spec_label s = "Excellent"%string -> 9 <= s.
Proof.
  unfold spec_label. destruct (Z.leb_spec 9 s); [intros _; assumption |].
  destruct (7 <=? s), (5 <=? s), (3 <=? s); discriminate.
Qed.

(** X24: "Excellent" takes at least 12 characters, at least three classes,
    at least 60 bits of entropy and at most one point of penalty. *)
Theorem excellent_requires (pw : pystr) :
  label (score_password pw) = "Excellent"%string ->
  12 <= Z.of_nat (List.length pw)
  /\ 3 <= spec_class_count pw
  /\ (60 <= shannon_entropy_bits pw)%R
  /\ repeating_or_sequences_penalty pw <= 1.
Proof.
  intros H.
  destruct (verdict_cases pw) as [[_ E] | [[_ [_ E]] | [Hne [Hnb E]]]];
    [rewrite E in H; discriminate | rewrite E in H; discriminate |].
  assert (H9 : 9 <= score (score_password pw)).
  { rewrite E in H |- *. cbn [label score] in *. now apply spec_label_excellent. }
  clear E H. rewrite (full_path_score pw Hne Hnb) in H9.
  pose proof (spec_tiers_bounds pw) as [H1 [H2 _]].
  pose proof (penalty_nonneg pw) as Hp.
  pose proof (class_count_range pw) as Hc.
  pose proof (bits_ge_spec pw 60 ltac:(lia)) as B60.
  pose proof (bits_ge_mono pw 60 80 ltac:(lia)) as M80.
  unfold spec_length_tier, spec_variety_points in *.
  assert (E60 : bits_ge pw 60 = true).
  { destruct (bits_ge pw 80); [now apply M80 |].
    destruct (bits_ge pw 60); [reflexivity |].
    destruct (bits_ge pw 40);
      destruct (16 <=? Z.of_nat (List.length pw)), (12 <=? Z.of_nat (List.length pw)),
        (10 <=? Z.of_nat (List.length pw)), (8 <=? Z.of_nat (List.length pw)); lia. }
  split; [| split; [| split; [now apply B60 |]]].
  - destruct (Z.leb_spec 16 (Z.of_nat (List.length pw))); [lia |].
    destruct (Z.leb_spec 12 (Z.of_nat (List.length pw))); [lia |].
    destruct (10 <=? Z.of_nat (List.length pw)), (8 <=? Z.of_nat (List.length pw));
      destruct (bits_ge pw 80), (bits_ge pw 60), (bits_ge pw 40); lia.
  - destruct (16 <=? Z.of_nat (List.length pw)), (12 <=? Z.of_nat (List.length pw)),
      (10 <=? Z.of_nat (List.length pw)), (8 <=? Z.of_nat (List.length pw));
      destruct (bits_ge pw 80), (bits_ge pw 60), (bits_ge pw 40); lia.
  - destruct (16 <=? Z.of_nat (List.length pw)), (12 <=? Z.of_nat (List.length pw)),
      (10 <=? Z.of_nat (List.length pw)), (8 <=? Z.of_nat (List.length pw));
      destruct (bits_ge pw 80), (bits_ge pw 60), (bits_ge pw 40); lia.
Qed.

End Scorer.

(** * The theorems at concrete passwords

    The Unicode tables are instantiated with their Latin-1 part; the
    passwords below are ASCII, where the tables are not consulted. *)

Lemma not_blacklisted (pw : pystr) :
  in_set (lower latin1_lower pw) COMMON = false -> ~ In (lower latin1_lower pw) COMMON.
Proof. intros E H. apply in_set_In in H. congruence. Qed.

Lemma score_formula_witness :
  str "P@ssw0rd123!" <> []
  /\ ~ In (lower latin1_lower (str "P@ssw0rd123!")) COMMON
  /\ score (score_password latin1_isalnum latin1_lower (str "P@ssw0rd123!"))
     = spec_score latin1_isalnum latin1_lower (str "P@ssw0rd123!").
Proof.
  assert (Hne : str "P@ssw0rd123!" <> []) by discriminate.
  assert (Hbl : ~ In (lower latin1_lower (str "P@ssw0rd123!")) COMMON)
    by (apply not_blacklisted; vm_compute; reflexivity).
  split; [exact Hne | split; [exact Hbl |]].
  exact (score_formula latin1_isalnum latin1_lower (str "P@ssw0rd123!") Hne Hbl).
Defined.

Lemma label_of_score_witness :
  str "P@ssw0rd123!" <> []
  /\ label (score_password latin1_isalnum latin1_lower (str "P@ssw0rd123!"))
     = spec_label (score (score_password latin1_isalnum latin1_lower (str "P@ssw0rd123!"))).
Proof.
  assert (Hne : str "P@ssw0rd123!" <> []) by discriminate.
  split; [exact Hne |].
  exact (proj1 (label_of_score latin1_isalnum latin1_lower) (str "P@ssw0rd123!") Hne).
Defined.

Lemma blacklisted_verdict_witness :
  str "PASSWORD" <> []
  /\ In (lower latin1_lower (str "PASSWORD")) COMMON
  /\ score_password latin1_isalnum latin1_lower (str "PASSWORD")
     = mkVerdict 1 "Very Weak" ["Common password (easily guessed)."%string] None None.
Proof.
  assert (Hne : str "PASSWORD" <> []) by discriminate.
  assert (Hbl : In (lower latin1_lower (str "PASSWORD")) COMMON)
    by (apply in_set_In; vm_compute; reflexivity).
  split; [exact Hne | split; [exact Hbl |]].
  exact (blacklisted_verdict latin1_isalnum latin1_lower (str "PASSWORD") Hne Hbl).
Defined.

Lemma clamp_upper_not_binding_witness :
  str "Tr0ub4dor&3xQ!zLm9" <> []
  /\ ~ In (lower latin1_lower (str "Tr0ub4dor&3xQ!zLm9")) COMMON
  /\ fst (run_heuristics latin1_isalnum latin1_lower (str "Tr0ub4dor&3xQ!zLm9")) <= 10
  /\ Z.min 10 (fst (run_heuristics latin1_isalnum latin1_lower (str "Tr0ub4dor&3xQ!zLm9")))
     = fst (run_heuristics latin1_isalnum latin1_lower (str "Tr0ub4dor&3xQ!zLm9"))
  /\ score (score_password latin1_isalnum latin1_lower (str "Tr0ub4dor&3xQ!zLm9"))
     = Z.max 0 (fst (run_heuristics latin1_isalnum latin1_lower (str "Tr0ub4dor&3xQ!zLm9"))).
Proof.
  assert (Hne : str "Tr0ub4dor&3xQ!zLm9" <> []) by discriminate.
  assert (Hbl : ~ In (lower latin1_lower (str "Tr0ub4dor&3xQ!zLm9")) COMMON)
    by (apply not_blacklisted; vm_compute; reflexivity).
  split; [exact Hne | split; [exact Hbl |]].
  exact (clamp_upper_not_binding latin1_isalnum latin1_lower
           (str "Tr0ub4dor&3xQ!zLm9") Hne Hbl).
Defined.

Lemma charset_size_fallback_witness :
  forallb (unclassed latin1_isalnum) (str "abc") = false
  /\ 0 < spec_class_count latin1_isalnum (str "abc")
  /\ 10 <= charset_size latin1_isalnum (str "abc").
Proof.
  assert (H : forallb (unclassed latin1_isalnum) (str "abc") = false) by reflexivity.
  split; [exact H |].
  exact (proj1 (proj2 (charset_size_fallback latin1_isalnum)) (str "abc") H).
Defined.

(** The label is not a function of the score over all verdicts: the empty
    string and "aaa1" both score 0, the first with the label "Empty", the
    second with "Very Weak", which is what the mapping gives for 0. *)
Lemma empty_label_not_mapped :
  score (score_password latin1_isalnum latin1_lower []) = 0
  /\ label (score_password latin1_isalnum latin1_lower []) = "Empty"%string
  /\ spec_label (score (score_password latin1_isalnum latin1_lower []))
     = "Very Weak"%string
  /\ score (score_password latin1_isalnum latin1_lower (str "aaa1")) = 0
  /\ label (score_password latin1_isalnum latin1_lower (str "aaa1")) = "Very Weak"%string.
Proof. repeat split; vm_compute; reflexivity. Qed.

(** The string "_" is not empty, has none of the four classes and gets the
    fallback charset size 1. *)
Lemma underscore_unclassed :
  str "_" <> []
  /\ spec_class_count latin1_isalnum (str "_") = 0
  /\ charset_size latin1_isalnum (str "_") = 1.
Proof. split; [discriminate | split; reflexivity]. Qed.

(** All six indicators fire on "aaa1234qwerasdfzxcv": the penalty is 6. *)
Lemma penalty_six :
  repeating_or_sequences_penalty latin1_lower (str "aaa1234qwerasdfzxcv") = 6.
Proof. vm_compute. reflexivity. Qed.

(** * The further properties at concrete passwords *)

Lemma full_path_reasons_witness :
  str "aaa1" <> []
  /\ ~ In (lower latin1_lower (str "aaa1")) COMMON
  /\ reasons (score_password latin1_isalnum latin1_lower (str "aaa1"))
     = [note_too_short; note_low_entropy; note_patterns].
Proof.
  assert (Hne : str "aaa1" <> []) by discriminate.
  assert (Hbl : ~ In (lower latin1_lower (str "aaa1")) COMMON)
    by (apply not_blacklisted; vm_compute; reflexivity).
  split; [exact Hne | split; [exact Hbl |]].
  exact (proj1 (full_path_reasons latin1_isalnum latin1_lower (str "aaa1") Hne Hbl)).
Defined.

Lemma perfect_score_no_reasons_witness :
  score (score_password latin1_isalnum latin1_lower (str "Tr0ub4dor&3xQ!zLm9")) = 10
  /\ reasons (score_password latin1_isalnum latin1_lower (str "Tr0ub4dor&3xQ!zLm9")) = [].
Proof.
  assert (H : score (score_password latin1_isalnum latin1_lower
                       (str "Tr0ub4dor&3xQ!zLm9")) = 10)
    by (vm_compute; reflexivity).
  split; [exact H |].
  exact (perfect_score_no_reasons latin1_isalnum latin1_lower (str "Tr0ub4dor&3xQ!zLm9") H).
Defined.

Lemma short_password_cap_witness :
  Z.of_nat (List.length (str "aB3!xyz")) < 8
  /\ score (score_password latin1_isalnum latin1_lower (str "aB3!xyz")) <= 4
  /\ In (label (score_password latin1_isalnum latin1_lower (str "aB3!xyz")))
       ["Empty"; "Very Weak"; "Weak"]%string.
Proof.
  assert (H : Z.of_nat (List.length (str "aB3!xyz")) < 8) by (vm_compute; reflexivity).
  split; [exact H |].
  exact (short_password_cap latin1_isalnum latin1_lower (str "aB3!xyz") H).
Defined.

Lemma single_class_cap_witness :
  spec_class_count latin1_isalnum (str "correcthorsebatterystaple") <= 1
  /\ score (score_password latin1_isalnum latin1_lower (str "correcthorsebatterystaple")) <= 7
  /\ label (score_password latin1_isalnum latin1_lower (str "correcthorsebatterystaple"))
     <> "Excellent"%string.
Proof.
  assert (H : spec_class_count latin1_isalnum (str "correcthorsebatterystaple") <= 1)
    by (vm_compute; discriminate).
  split; [exact H |].
  exact (single_class_cap latin1_isalnum latin1_lower (str "correcthorsebatterystaple") H).
Defined.

Lemma tiny_password_low_entropy_witness :
  str "aB3!" <> []
  /\ ~ In (lower latin1_lower (str "aB3!")) COMMON
  /\ Z.of_nat (List.length (str "aB3!")) <= 6
  /\ (shannon_entropy_bits latin1_isalnum (str "aB3!") < 40)%R
  /\ In note_low_entropy (reasons (score_password latin1_isalnum latin1_lower (str "aB3!")))
  /\ In note_too_short (reasons (score_password latin1_isalnum latin1_lower (str "aB3!")))
  /\ score (score_password latin1_isalnum latin1_lower (str "aB3!")) <= 3.
Proof.
  assert (Hne : str "aB3!" <> []) by discriminate.
  assert (Hbl : ~ In (lower latin1_lower (str "aB3!")) COMMON)
    by (apply not_blacklisted; vm_compute; reflexivity).
  assert (HL : Z.of_nat (List.length (str "aB3!")) <= 6) by (vm_compute; discriminate).
  split; [exact Hne | split; [exact Hbl | split; [exact HL |]]].
  exact (tiny_password_low_entropy latin1_isalnum latin1_lower (str "aB3!") Hne Hbl HL).
Defined.

Lemma unclassed_password_entropy_witness :
  forallb (unclassed latin1_isalnum) (str "________") = true
  /\ shannon_entropy_bits latin1_isalnum (str "________") = 0%R
  /\ entropy_bits (score_password latin1_isalnum latin1_lower (str "________"))
     = Some (Tenths 0)
  /\ In note_low_entropy
       (reasons (score_password latin1_isalnum latin1_lower (str "________")))
  /\ score (score_password latin1_isalnum latin1_lower (str "________")) <= 4.
Proof.
  assert (H : forallb (unclassed latin1_isalnum) (str "________") = true) by reflexivity.
  assert (Hne : str "________" <> []) by discriminate.
  assert (Hbl : ~ In (lower latin1_lower (str "________")) COMMON)
    by (apply not_blacklisted; vm_compute; reflexivity).
  split; [exact H |].
  split; [exact (proj1 (unclassed_password_entropy latin1_isalnum latin1_lower
                          (str "________") H)) |].
  exact (proj2 (unclassed_password_entropy latin1_isalnum latin1_lower (str "________") H)
           Hne Hbl).
Defined.

Lemma long_password_top_tier_witness :
  (25 <= List.length (str "correcthorsebatterystaple"))%nat
  /\ forallb (unclassed latin1_isalnum) (str "correcthorsebatterystaple") = false
  /\ (80 <= shannon_entropy_bits latin1_isalnum (str "correcthorsebatterystaple"))%R
  /\ spec_entropy_tier latin1_isalnum (str "correcthorsebatterystaple") = 3.
Proof.
  assert (HL : (25 <= List.length (str "correcthorsebatterystaple"))%nat)
    by (vm_compute; lia).
  assert (Hc : forallb (unclassed latin1_isalnum) (str "correcthorsebatterystaple") = false)
    by reflexivity.
  split; [exact HL | split; [exact Hc |]].
  exact (long_password_top_tier latin1_isalnum latin1_lower
           (str "correcthorsebatterystaple") HL Hc).
Defined.

Lemma tier_insensitive_to_rounding_witness :
  (Rabs (shannon_entropy_bits latin1_isalnum (str "P@ssw0rd123!") + 1 / 100
         - shannon_entropy_bits latin1_isalnum (str "P@ssw0rd123!")) < 1 / 20)%R
  /\ tier_of_bits (shannon_entropy_bits latin1_isalnum (str "P@ssw0rd123!") + 1 / 100)
     = spec_entropy_tier latin1_isalnum (str "P@ssw0rd123!").
Proof.
  assert (H : (Rabs (shannon_entropy_bits latin1_isalnum (str "P@ssw0rd123!") + 1 / 100
                     - shannon_entropy_bits latin1_isalnum (str "P@ssw0rd123!"))
               < 1 / 20)%R).
  { replace (shannon_entropy_bits latin1_isalnum (str "P@ssw0rd123!") + 1 / 100
             - shannon_entropy_bits latin1_isalnum (str "P@ssw0rd123!"))%R
      with (1 / 100)%R by lra.
    rewrite Rabs_pos_eq; lra. }
  split; [exact H |].
  exact (tier_insensitive_to_rounding latin1_isalnum latin1_lower (str "P@ssw0rd123!") _ H).
Defined.

Lemma ascii_blacklist_ignores_case_witness :
  forallb is_ascii (str "PaSsWoRd") = true
  /\ In (map ascii_lower (str "PaSsWoRd")) COMMON
  /\ lower latin1_lower (str "PaSsWoRd") = map ascii_lower (str "PaSsWoRd")
  /\ score_password latin1_isalnum latin1_lower (str "PaSsWoRd")
     = mkVerdict 1 "Very Weak" ["Common password (easily guessed)."%string] None None.
Proof.
  assert (Ha : forallb is_ascii (str "PaSsWoRd") = true) by reflexivity.
  assert (Hin : In (map ascii_lower (str "PaSsWoRd")) COMMON)
    by (apply in_set_In; vm_compute; reflexivity).
  split; [exact Ha | split; [exact Hin |]].
  split.
  - exact (proj1 (ascii_blacklist_ignores_case latin1_isalnum latin1_lower
                    (str "PaSsWoRd") Ha)).
  - exact (proj2 (ascii_blacklist_ignores_case latin1_isalnum latin1_lower
                    (str "PaSsWoRd") Ha) Hin).
Defined.

Lemma blacklist_entries_rejected_witness :
  In (str "1q2w3e4r") COMMON
  /\ lower latin1_lower (str "1q2w3e4r") = str "1q2w3e4r"
  /\ score_password latin1_isalnum latin1_lower (str "1q2w3e4r")
     = mkVerdict 1 "Very Weak" ["Common password (easily guessed)."%string] None None.
Proof.
  assert (H : In (str "1q2w3e4r") COMMON) by (apply in_set_In; vm_compute; reflexivity).
  split; [exact H |].
  exact (blacklist_entries_rejected latin1_isalnum latin1_lower (str "1q2w3e4r") H).
Defined.

Lemma keyboard_runs_count_twice_witness :
  In (str "qwer") [str "qwer"; str "asdf"; str "zxcv"]
  /\ contains (str "qwer") (lower latin1_lower (str "MyQWERty9"))
  /\ 2 <= repeating_or_sequences_penalty latin1_lower (str "MyQWERty9").
Proof.
  assert (Hr : In (str "qwer") [str "qwer"; str "asdf"; str "zxcv"])
    by (left; reflexivity).
  assert (Hc : contains (str "qwer") (lower latin1_lower (str "MyQWERty9")))
    by (apply str_in_spec; vm_compute; reflexivity).
  split; [exact Hr | split; [exact Hc |]].
  exact (keyboard_runs_count_twice latin1_lower (str "MyQWERty9") (str "qwer") Hr Hc).
Defined.


Lemma excellent_requires_witness :
  label (score_password latin1_isalnum latin1_lower (str "Tr0ub4dor&3xQ!zLm9"))
  = "Excellent"%string
  /\ 12 <= Z.of_nat (List.length (str "Tr0ub4dor&3xQ!zLm9"))
  /\ 3 <= spec_class_count latin1_isalnum (str "Tr0ub4dor&3xQ!zLm9")
  /\ (60 <= shannon_entropy_bits latin1_isalnum (str "Tr0ub4dor&3xQ!zLm9"))%R
  /\ repeating_or_sequences_penalty latin1_lower (str "Tr0ub4dor&3xQ!zLm9") <= 1.
Proof.
  assert (H : label (score_password latin1_isalnum latin1_lower (str "Tr0ub4dor&3xQ!zLm9"))
              = "Excellent"%string) by (vm_compute; reflexivity).
  split; [exact H |].
  exact (excellent_requires latin1_isalnum latin1_lower (str "Tr0ub4dor&3xQ!zLm9") H).
Defined.

Lemma optional_keys_iff_witness :
  str "P@ssw0rd123!" <> []
  /\ ~ In (lower latin1_lower (str "P@ssw0rd123!")) COMMON
  /\ length_ (score_password latin1_isalnum latin1_lower (str "P@ssw0rd123!"))
     = Some 12.
Proof.
  assert (Hne : str "P@ssw0rd123!" <> []) by discriminate.
  assert (Hbl : ~ In (lower latin1_lower (str "P@ssw0rd123!")) COMMON)
    by (apply not_blacklisted; vm_compute; reflexivity).
  split; [exact Hne | split; [exact Hbl |]].
  exact (proj2 (proj2 (optional_keys_iff latin1_isalnum latin1_lower (str "P@ssw0rd123!")))
           Hne Hbl).
Defined.

Lemma empty_label_iff_witness :
  str "aaa1" <> []
  /\ In (label (score_password latin1_isalnum latin1_lower (str "aaa1"))) full_path_labels.
Proof.
  assert (Hne : str "aaa1" <> []) by discriminate.
  split; [exact Hne |].
  exact (proj2 (empty_label_iff latin1_isalnum latin1_lower (str "aaa1")) Hne).
Defined.

Lemma no_notes_iff_witness :
  reasons (score_password latin1_isalnum latin1_lower (str "P@ssw0rd123!")) = []
  /\ 3 <= score (score_password latin1_isalnum latin1_lower (str "P@ssw0rd123!")).
Proof.
  assert (H : reasons (score_password latin1_isalnum latin1_lower (str "P@ssw0rd123!")) = [])
    by (vm_compute; reflexivity).
  split; [exact H |].
  exact (proj2 (no_notes_iff latin1_isalnum latin1_lower (str "P@ssw0rd123!")) H).
Defined.
